(** * Post API (src/server.js): a shallow embedding of the three route handlers

    The server is an Express application with three JSON routes over one
    [Post] table reached through a Prisma client:

      GET    /api/posts       list, newest first
      POST   /api/posts       create from [{content, imageUrl, userId}]
      DELETE /api/posts/:id   delete by primary key

    The handlers are [async] functions whose whole body is a [try]/[catch].
    They are embedded as computations in a state-and-exception monad over a
    [World] that holds the database, the console, the Express response object
    and the list of Prisma calls issued so far.  JavaScript values, strings
    (sequences of UTF-16 code units), [String.prototype.trim], [parseInt],
    [isNaN] and truthiness follow ECMAScript.  The greeting on [GET /], the
    CORS middleware and [app.listen] take no part in the three routes and
    are left out. *)

From Stdlib Require Import ZArith NArith List Bool Lia.
From Stdlib Require Import Floats.SpecFloat.
From stdpp Require Import base option list gmap sorting.

Local Open Scope Z_scope.

(** ** JavaScript strings *)

(** A JavaScript string is a finite sequence of 16-bit code units. *)
Definition JsString : Type := list N.

(** ECMAScript [WhiteSpace] and [LineTerminator] code points, the set that
    [trim] and the [StrWhiteSpaceChar] production of [parseInt] strip. *)
Definition is_white_space (c : N) : bool :=
  (N.eqb c 0x0009 || N.eqb c 0x000A || N.eqb c 0x000B || N.eqb c 0x000C
   || N.eqb c 0x000D || N.eqb c 0x0020 || N.eqb c 0x00A0 || N.eqb c 0x1680
   || (N.leb 0x2000 c && N.leb c 0x200A)
   || N.eqb c 0x2028 || N.eqb c 0x2029 || N.eqb c 0x202F || N.eqb c 0x205F
   || N.eqb c 0x3000 || N.eqb c 0xFEFF)%bool.

Fixpoint trimStart (s : JsString) : JsString :=
  match s with
  | [] => []
  | c :: rest => if is_white_space c then trimStart rest else s
  end.

Definition trimEnd (s : JsString) : JsString := rev (trimStart (rev s)).

(** [String.prototype.trim]: TrimString(S, start+end). *)
Definition trim (s : JsString) : JsString := trimEnd (trimStart s).

(** A string with no visible code unit: empty, or white space only. *)
Definition blank (s : JsString) : bool := forallb is_white_space s.

(** ** JavaScript numbers *)

(** A Number is an IEEE 754 binary64 value. *)
Definition Number : Type := spec_float.

(** The Number for a mathematical integer: round to nearest, ties to even. *)
Definition number_of_Z (z : Z) : Number := binary_normalize 53 1024 z 0 false.

Definition isNaN (n : Number) : bool :=
  match n with
  | S754_nan => true
  | _ => false
  end.

(** Value of a code unit as a digit in the given radix, if it is one:
    [0-9], then [a-z] and [A-Z] for 10 to 35. *)
Definition digit_value (radix : Z) (c : N) : option Z :=
  let raw :=
    if (N.leb 0x30 c && N.leb c 0x39)%bool then Some (Z.of_N c - 0x30)
    else if (N.leb 0x61 c && N.leb c 0x7A)%bool then Some (Z.of_N c - 0x61 + 10)
    else if (N.leb 0x41 c && N.leb c 0x5A)%bool then Some (Z.of_N c - 0x41 + 10)
    else None in
  match raw with
  | Some v => if v <? radix then Some v else None
  | None => None
  end.

(** The longest prefix of radix-[radix] digits, as digit values. *)
Fixpoint leading_digits (radix : Z) (s : JsString) : list Z :=
  match s with
  | [] => []
  | c :: rest =>
      match digit_value radix c with
      | Some v => v :: leading_digits radix rest
      | None => []
      end
  end.

Definition digits_value (radix : Z) (ds : list Z) : Z :=
  fold_left (fun acc d => acc * radix + d) ds 0.

(** A leading [-] or [+] is consumed; [-] makes the result negative. *)
Definition read_sign (s : JsString) : bool * JsString :=
  match s with
  | c :: rest =>
      if N.eqb c 0x2D then (true, rest)
      else if N.eqb c 0x2B then (false, rest)
      else (false, s)
  | [] => (false, s)
  end.

(** A [0x] or [0X] at the very start. *)
Definition hex_prefix (s : JsString) : bool :=
  match s with
  | c0 :: c1 :: _ => (N.eqb c0 0x30 && (N.eqb c1 0x78 || N.eqb c1 0x58))%bool
  | _ => false
  end.

(** With no radix given, a hexadecimal prefix is consumed and selects
    radix 16; otherwise the radix is 10. *)
Definition read_radix (s : JsString) : Z * JsString :=
  if hex_prefix s then (16, drop 2 s) else (10, s).

(** [parseInt(string)] with the radix argument absent (ECMAScript 19.2.5):
    leading white space is skipped, one sign is read, a [0x]/[0X] prefix
    switches to radix 16, the longest digit prefix is converted, and an empty
    digit prefix gives NaN. *)
Definition parseInt (input : JsString) : Number :=
  let '(negative, s) := read_sign (trimStart input) in
  let '(radix, s) := read_radix s in
  match leading_digits radix s with
  | [] => S754_nan
  | ds =>
      let mathInt := digits_value radix ds in
      if mathInt =? 0 then S754_zero negative
      else number_of_Z (if negative then - mathInt else mathInt)
  end.

(** ** JavaScript values *)

(** The values a request can carry after [express.json()]: [undefined] for
    what is absent, and the JSON values. *)
#[local] Set Warnings "-register-all".
Inductive JsValue : Type :=
  | JUndefined
  | JNull
  | JBool (b : bool)
  | JNum (n : Number)
  | JStr (s : JsString)
  | JArr (elems : list JsValue)
  | JObj (props : list (JsString * JsValue)).

(** [ToBoolean]. *)
Definition truthy (v : JsValue) : bool :=
  match v with
  | JUndefined | JNull => false
  | JBool b => b
  | JNum (S754_zero _) | JNum S754_nan => false
  | JNum _ => true
  | JStr s => negb (Nat.eqb (length s) 0)
  | JArr _ | JObj _ => true
  end.

Definition jsstring_eqb (a b : JsString) : bool := bool_decide (a = b).

(** [v === lit] for a string literal [lit]. *)
Definition strict_equals_string (v : JsValue) (lit : JsString) : bool :=
  match v with
  | JStr s => jsstring_eqb s lit
  | _ => false
  end.

(** [a || b]. *)
Definition js_or (a b : JsValue) : JsValue := if truthy a then a else b.

(** The value of an own property of a parsed JSON object, [undefined] when
    there is none; a parsed object has each key once. *)
Fixpoint own_property (props : list (JsString * JsValue)) (key : JsString) : JsValue :=
  match props with
  | [] => JUndefined
  | (k, v) :: rest => if jsstring_eqb k key then v else own_property rest key
  end.

(** ** Errors and completions *)

Record JsError : Type := mkError {
  err_name : JsString;
  err_code : JsValue
}.

Inductive Completion (A : Type) : Type :=
  | Normal (a : A)
  | Throw (e : JsError).
Arguments Normal {A} a.
Arguments Throw {A} e.

(** "TypeError" *)
Definition TypeError : JsError :=
  mkError [0x54; 0x79; 0x70; 0x65; 0x45; 0x72; 0x72; 0x6F; 0x72]%N JUndefined.

(** Property names read by the handlers. *)
Definition key_content : JsString :=
  [0x63; 0x6F; 0x6E; 0x74; 0x65; 0x6E; 0x74]%N.
Definition key_imageUrl : JsString :=
  [0x69; 0x6D; 0x61; 0x67; 0x65; 0x55; 0x72; 0x6C]%N.
Definition key_userId : JsString :=
  [0x75; 0x73; 0x65; 0x72; 0x49; 0x64]%N.

(** One binding of [const { content, imageUrl, userId } = req.body]:
    destructuring [undefined] or [null] raises a TypeError; an object gives
    its own property or [undefined]; arrays and primitives have none of the
    three names. *)
Definition destructure (body : JsValue) (key : JsString) : Completion JsValue :=
  match body with
  | JUndefined | JNull => Throw TypeError
  | JObj props => Normal (own_property props key)
  | _ => Normal JUndefined
  end.

(** [v.trim()]: only a string has a callable [trim]; a JSON number, boolean,
    array or object has none (a JSON value is never a function), and
    reading a property of [undefined] or [null] fails too. *)
Definition call_trim (v : JsValue) : Completion JsString :=
  match v with
  | JStr s => Normal (trim s)
  | _ => Throw TypeError
  end.

(** ** The Post entity and the Prisma client *)

Record Post : Type := mkPost {
  post_id : Z;
  post_content : JsString;
  post_imageUrl : JsValue;
  post_userId : JsValue;
  post_createdAt : Z
}.

(** The [data] argument of [prisma.post.create]. *)
Record PostData : Type := mkPostData {
  data_content : JsString;
  data_imageUrl : JsValue;
  data_userId : JsValue
}.

Inductive SortOrder : Type := asc | desc.

(** The argument of [prisma.post.findMany]: [{ orderBy: { createdAt } }]. *)
Record FindManyArgs : Type := mkFindManyArgs {
  orderBy_createdAt : SortOrder
}.

(** The Prisma calls a handler can issue, with their arguments. *)
Inductive PrismaCall : Type :=
  | CallFindMany (args : FindManyArgs)
  | CallCreate (data : PostData)
  | CallDelete (where_id : Number).

(** [prisma.post]: each operation is awaited, so it either resolves with a
    value or rejects with an error, and leaves the database in a new state. *)
Record PrismaClient (DB : Type) : Type := mkPrismaClient {
  post_findMany : FindManyArgs -> DB -> Completion (list Post) * DB;
  post_create : PostData -> DB -> Completion Post * DB;
  post_delete : Number -> DB -> Completion Post * DB
}.
Arguments post_findMany {DB} _ _ _.
Arguments post_create {DB} _ _ _.
Arguments post_delete {DB} _ _ _.

(** ** The Express response and the handler monad *)

Inductive Body : Type :=
  | BodyPosts (posts : list Post)
  | BodyPost (post : Post)
  | BodyError (error : JsString)
  | BodyMessage (message : JsString).

(** The [res] object: the status code set so far (200 until [res.status] is
    called) and the JSON body once one was sent. *)
Record Res : Type := mkRes {
  statusCode : Z;
  sent : option Body
}.

(** What one awaited Prisma call was and whether it rejected. *)
Record CallRecord : Type := mkCallRecord {
  call : PrismaCall;
  rejection : option JsError
}.

Definition rejection_of {A} (outcome : Completion A) : option JsError :=
  match outcome with
  | Normal _ => None
  | Throw e => Some e
  end.

(** The requests the application routes to a handler. *)
Inductive Request : Type :=
  | GetPosts
  | PostPosts (req_body : JsValue)
  | DeletePost (req_params_id : JsString).

(** What a handler acts on: the database, the lines written with
    [console.error], the Prisma calls awaited so far (kept for the proofs;
    the program has no such list) and the response object. *)
Record World (DB : Type) : Type := mkWorld {
  database : DB;
  console : list (JsString * JsError);
  calls : list CallRecord;
  res : Res
}.
Arguments mkWorld {DB} _ _ _ _.
Arguments database {DB} _.
Arguments console {DB} _.
Arguments calls {DB} _.
Arguments res {DB} _.

(** "ERR_HTTP_HEADERS_SENT": what Express raises on a second send. *)
Definition HeadersSent : JsError :=
  mkError [0x45; 0x72; 0x72; 0x6F; 0x72]%N
    (JStr [0x45; 0x52; 0x52; 0x5F; 0x48; 0x54; 0x54; 0x50; 0x5F; 0x48; 0x45;
           0x41; 0x44; 0x45; 0x52; 0x53; 0x5F; 0x53; 0x45; 0x4E; 0x54]%N).

Section Handlers.

Variable DB : Type.
Variable prisma : PrismaClient DB.

(** A handler step: it reads and writes the world and either completes
    normally or throws. *)
Definition Handler (A : Type) : Type := World DB -> Completion A * World DB.

Definition ret {A} (a : A) : Handler A := fun w => (Normal a, w).

Definition bind {A B} (m : Handler A) (k : A -> Handler B) : Handler B :=
  fun w =>
    match m w with
    | (Normal a, w') => k a w'
    | (Throw e, w') => (Throw e, w')
    end.

(** A pure step of evaluation that may raise. *)
Definition eval {A} (c : Completion A) : Handler A := fun w => (c, w).

(** [try { body } catch (error) { handler }] *)
Definition try_catch {A} (body : Handler A) (handler : JsError -> Handler A)
  : Handler A :=
  fun w =>
    match body w with
    | (Normal a, w') => (Normal a, w')
    | (Throw e, w') => handler e w'
    end.

Notation "x <~ m ;; k" := (bind m (fun x => k))
  (at level 100, m at next level, right associativity).
Notation "m ;;; k" := (bind m (fun _ => k))
  (at level 100, right associativity).

(** [console.error(label, error)] *)
Definition console_error (label : JsString) (error : JsError) : Handler unit :=
  fun w =>
    (Normal tt,
     mkWorld (database w) (console w ++ [(label, error)]) (calls w) (res w)).

(** [res.status(code)] *)
Definition res_status (code : Z) : Handler unit :=
  fun w =>
    (Normal tt,
     mkWorld (database w) (console w) (calls w) (mkRes code (sent (res w)))).

(** [res.json(body)] *)
Definition res_json (b : Body) : Handler unit :=
  fun w =>
    match sent (res w) with
    | Some _ => (Throw HeadersSent, w)
    | None =>
        (Normal tt,
         mkWorld (database w) (console w) (calls w)
                 (mkRes (statusCode (res w)) (Some b)))
    end.

(** [await prisma.post.<op>(args)]: the call is issued against the current
    database; a rejection is rethrown at the [await]. *)
Definition await_prisma {A} (c : PrismaCall)
    (op : DB -> Completion A * DB) : Handler A :=
  fun w =>
    let '(outcome, db') := op (database w) in
    (outcome,
     mkWorld db' (console w)
             (calls w ++ [mkCallRecord c (rejection_of outcome)]) (res w)).

Definition prisma_post_findMany (args : FindManyArgs) : Handler (list Post) :=
  await_prisma (CallFindMany args) (post_findMany prisma args).

Definition prisma_post_create (data : PostData) : Handler Post :=
  await_prisma (CallCreate data) (post_create prisma data).

Definition prisma_post_delete (where_id : Number) : Handler Post :=
  await_prisma (CallDelete where_id) (post_delete prisma where_id).

(** *** Fixed texts *)

(** "Error fetching posts:" *)
Definition label_fetching : JsString :=
  [0x45; 0x72; 0x72; 0x6F; 0x72; 0x20; 0x66; 0x65; 0x74; 0x63; 0x68; 0x69;
   0x6E; 0x67; 0x20; 0x70; 0x6F; 0x73; 0x74; 0x73; 0x3A]%N.
(** "Error creating post:" *)
Definition label_creating : JsString :=
  [0x45; 0x72; 0x72; 0x6F; 0x72; 0x20; 0x63; 0x72; 0x65; 0x61; 0x74; 0x69;
   0x6E; 0x67; 0x20; 0x70; 0x6F; 0x73; 0x74; 0x3A]%N.
(** "Error deleting post:" *)
Definition label_deleting : JsString :=
  [0x45; 0x72; 0x72; 0x6F; 0x72; 0x20; 0x64; 0x65; 0x6C; 0x65; 0x74; 0x69;
   0x6E; 0x67; 0x20; 0x70; 0x6F; 0x73; 0x74; 0x3A]%N.
(** "P2025": Prisma's code for a record that was not found. *)
Definition P2025 : JsString := [0x50; 0x32; 0x30; 0x32; 0x35]%N.

(** 投稿の取得に失敗しました *)
Definition msg_fetch_failed : JsString :=
  [0x6295; 0x7A3F; 0x306E; 0x53D6; 0x5F97; 0x306B; 0x5931; 0x6557; 0x3057;
   0x307E; 0x3057; 0x305F]%N.
(** 投稿の中身が空なので入力してください *)
Definition msg_content_empty : JsString :=
  [0x6295; 0x7A3F; 0x306E; 0x4E2D; 0x8EAB; 0x304C; 0x7A7A; 0x306A; 0x306E;
   0x3067; 0x5165; 0x529B; 0x3057; 0x3066; 0x304F; 0x3060; 0x3055; 0x3044]%N.
(** 投稿の作成に失敗しました *)
Definition msg_create_failed : JsString :=
  [0x6295; 0x7A3F; 0x306E; 0x4F5C; 0x6210; 0x306B; 0x5931; 0x6557; 0x3057;
   0x307E; 0x3057; 0x305F]%N.
(** 無効なIDです *)
Definition msg_invalid_id : JsString :=
  [0x7121; 0x52B9; 0x306A; 0x0049; 0x0044; 0x3067; 0x3059]%N.
(** 投稿を削除しました *)
Definition msg_deleted : JsString :=
  [0x6295; 0x7A3F; 0x3092; 0x524A; 0x9664; 0x3057; 0x307E; 0x3057; 0x305F]%N.
(** 投稿が見つかりません *)
Definition msg_not_found : JsString :=
  [0x6295; 0x7A3F; 0x304C; 0x898B; 0x3064; 0x304B; 0x308A; 0x307E; 0x305B;
   0x3093]%N.
(** 投稿の削除に失敗しました *)
Definition msg_delete_failed : JsString :=
  [0x6295; 0x7A3F; 0x306E; 0x524A; 0x9664; 0x306B; 0x5931; 0x6557; 0x3057;
   0x307E; 0x3057; 0x305F]%N.

(** *** GET /api/posts *)

Definition get_api_posts : Handler unit :=
  try_catch
    (posts <~ prisma_post_findMany (mkFindManyArgs desc) ;;
     res_json (BodyPosts posts))
    (fun error =>
       console_error label_fetching error ;;;
       res_status 500 ;;;
       res_json (BodyError msg_fetch_failed)).

(** *** POST /api/posts *)

(** [!content || content.trim() === ""]: the right operand is evaluated
    only when [content] is truthy. *)
Definition content_is_blank (content : JsValue) : Handler bool :=
  if negb (truthy content) then ret true
  else trimmed <~ eval (call_trim content) ;;
       ret (jsstring_eqb trimmed []).

Definition post_api_posts (req_body : JsValue) : Handler unit :=
  try_catch
    (content <~ eval (destructure req_body key_content) ;;
     imageUrl <~ eval (destructure req_body key_imageUrl) ;;
     userId <~ eval (destructure req_body key_userId) ;;
     invalid <~ content_is_blank content ;;
     if invalid then
       res_status 400 ;;;
       res_json (BodyError msg_content_empty)
     else
       trimmed <~ eval (call_trim content) ;;
       post <~ prisma_post_create
                 (mkPostData trimmed (js_or imageUrl JNull) (js_or userId JNull)) ;;
       res_status 201 ;;;
       res_json (BodyPost post))
    (fun error =>
       console_error label_creating error ;;;
       res_status 500 ;;;
       res_json (BodyError msg_create_failed)).

(** *** DELETE /api/posts/:id *)

Definition delete_api_posts_id (req_params_id : JsString) : Handler unit :=
  try_catch
    (let id := parseInt req_params_id in
     if isNaN id then
       res_status 400 ;;;
       res_json (BodyError msg_invalid_id)
     else
       prisma_post_delete id ;;;
       res_json (BodyMessage msg_deleted))
    (fun error =>
       console_error label_deleting error ;;;
       if strict_equals_string (err_code error) P2025 then
         res_status 404 ;;;
         res_json (BodyError msg_not_found)
       else
         res_status 500 ;;;
         res_json (BodyError msg_delete_failed)).

(** *** Routing *)

(** [app.get], [app.post] and [app.delete] register one handler each. *)
Definition app (r : Request) : Handler unit :=
  match r with
  | GetPosts => get_api_posts
  | PostPosts req_body => post_api_posts req_body
  | DeletePost req_params_id => delete_api_posts_id req_params_id
  end.

(** *** One request *)

(** Express calls the handler with a fresh [res] (status 200, nothing
    sent); the console and the call list start empty for the request. *)
Definition fresh (db : DB) : World DB := mkWorld db [] [] (mkRes 200 None).

Definition serve {A} (h : Handler A) (db : DB) : Completion A * World DB :=
  h (fresh db).

End Handlers.

Arguments get_api_posts {DB} prisma.
Arguments post_api_posts {DB} prisma req_body.
Arguments delete_api_posts_id {DB} prisma req_params_id.
Arguments app {DB} prisma r.
Arguments serve {DB A} h db.
Arguments fresh {DB} db.

(** ** The store behind the Prisma client *)

Module Store.

(** Modelled from the spec: the Post table of the relational store, which
    the repository reaches only through the generated Prisma client (not
    part of src/).  Rows are keyed by the primary key [id]; the store keeps
    the next key it will assign and its clock. *)
Record Row : Type := mkRow {
  row_content : JsString;
  row_imageUrl : JsValue;
  row_userId : JsValue;
  row_createdAt : Z
}.

Record Db : Type := mkDb {
  table : gmap Z Row;
  next_id : Z;
  now : Z
}.

Definition initial : Db := mkDb ∅ 1 0.

Definition post_of (entry : Z * Row) : Post :=
  mkPost entry.1 (row_content entry.2) (row_imageUrl entry.2)
         (row_userId entry.2) (row_createdAt entry.2).

Definition all_posts (db : Db) : list Post :=
  post_of <$> map_to_list (table db).

Definition newer_first (p q : Post) : Prop :=
  post_createdAt q ≤ post_createdAt p.
Definition older_first (p q : Post) : Prop :=
  post_createdAt p ≤ post_createdAt q.

#[global] Instance newer_first_dec p q : Decision (newer_first p q).
Proof. unfold newer_first. apply _. Defined.
#[global] Instance older_first_dec p q : Decision (older_first p q).
Proof. unfold older_first. apply _. Defined.

(** Modelled from the spec: "fetch all posts ordered by [createdAt]
    descending"; the listing never fails and does not change the store. *)
Definition findMany (args : FindManyArgs) (db : Db) : Completion (list Post) * Db :=
  (Normal match orderBy_createdAt args with
          | desc => merge_sort newer_first (all_posts db)
          | asc => merge_sort older_first (all_posts db)
          end,
   db).

(** Modelled from the spec: "the persistence layer assigns [id] and
    [createdAt]"; the other fields are stored as given. *)
Definition create (data : PostData) (db : Db) : Completion Post * Db :=
  let row := mkRow (data_content data) (data_imageUrl data)
                   (data_userId data) (now db) in
  (Normal (post_of (next_id db, row)),
   mkDb (<[next_id db := row]> (table db)) (next_id db + 1) (now db)).

(** The integer a Number stands for, when it is one. *)
Definition integer_of_number (n : Number) : option Z :=
  match n with
  | S754_zero _ => Some 0
  | S754_finite negative m e =>
      let magnitude :=
        if 0 <=? e then Some (Z.pos m * 2 ^ e)
        else if Z.pos m mod 2 ^ (- e) =? 0 then Some (Z.pos m / 2 ^ (- e))
        else None in
      (fun v : Z => if negative then - v else v) <$> magnitude
  | S754_infinity _ | S754_nan => None
  end.

(** "PrismaClientKnownRequestError" with [code] "P2025". *)
Definition RecordNotFound : JsError :=
  mkError
    [0x50; 0x72; 0x69; 0x73; 0x6D; 0x61; 0x43; 0x6C; 0x69; 0x65; 0x6E; 0x74;
     0x4B; 0x6E; 0x6F; 0x77; 0x6E; 0x52; 0x65; 0x71; 0x75; 0x65; 0x73; 0x74;
     0x45; 0x72; 0x72; 0x6F; 0x72]%N
    (JStr P2025).

(** The row a [where: { id }] selects. *)
Definition find_unique (where_id : Number) (db : Db) : option (Z * Row) :=
  match integer_of_number where_id with
  | Some k =>
      match table db !! k with
      | Some row => Some (k, row)
      | None => None
      end
  | None => None
  end.

(** Modelled from the spec: "delete the Post matching the identifier";
    when the "target record does not exist" the persistence layer "signals
    a record not found condition (a specific, well-known error code from
    the ORM)" and the store stays as it was. *)
Definition delete (where_id : Number) (db : Db) : Completion Post * Db :=
  match find_unique where_id db with
  | Some (k, row) =>
      (Normal (post_of (k, row)),
       mkDb (base.delete k (table db)) (next_id db) (now db))
  | None => (Throw RecordNotFound, db)
  end.

Definition client : PrismaClient Db := mkPrismaClient Db findMany create delete.

(** ** Requests against the store *)

(** The store after one request was served. *)
Definition after (r : Request) (db : Db) : Db :=
  database (serve (app client r) db).2.

(** The posts a listing request returns. *)
Definition listing (db : Db) : list Post :=
  match sent (res (serve (get_api_posts client) db).2) with
  | Some (BodyPosts posts) => posts
  | _ => []
  end.

(** Time passing between requests. *)
Definition tick (t : Z) (db : Db) : Db := mkDb (table db) (next_id db) t.

(** What the API can make of the initial, empty store: requests served one after
    another, with the clock moving in between. *)
Inductive reachable : Db -> Prop :=
  | reachable_initial : reachable initial
  | reachable_request r db : reachable db -> reachable (after r db)
  | reachable_tick t db : reachable db -> reachable (tick t db).

(** The primary-key sequence is ahead of every stored key. *)
Definition keys_below_next (db : Db) : Prop :=
  ∀ k, is_Some (table db !! k) → k < next_id db.

(** No stored [content] is empty or made of white space only. *)
Definition content_invariant (db : Db) : Prop :=
  ∀ k row, table db !! k = Some row → blank (row_content row) = false.

End Store.

(** ** Vocabulary of the statements *)

(** A decimal digit, as a code unit. *)
Definition decimal_digit (c : N) : bool :=
  (N.leb 0x30 c && N.leb c 0x39)%bool.

(** The integer a run of decimal digits denotes. *)
Definition decimal (digits : JsString) : Z :=
  fold_left (fun acc c => acc * 10 + (Z.of_N c - 0x30)) digits 0.

Definition starts_with_decimal_digit (s : JsString) : bool :=
  match s with
  | c :: _ => decimal_digit c
  | [] => false
  end.

(** The one rejection that is not reported as a server error: the
    record-not-found code, on the delete route. *)
Definition not_found_on_delete (r : Request) (e : JsError) : bool :=
  match r with
  | DeletePost _ => strict_equals_string (err_code e) P2025
  | _ => false
  end.

(** The fixed text each route sends with status 500, and the label it logs
    the error under. *)
Definition failure_message (r : Request) : JsString :=
  match r with
  | GetPosts => msg_fetch_failed
  | PostPosts _ => msg_create_failed
  | DeletePost _ => msg_delete_failed
  end.

Definition failure_label (r : Request) : JsString :=
  match r with
  | GetPosts => label_fetching
  | PostPosts _ => label_creating
  | DeletePost _ => label_deleting
  end.

(** A client whose database cannot be reached: every call rejects with an
    error that carries no [code]. *)
Module Outage.

(** "PrismaClientInitializationError" *)
Definition Unreachable : JsError :=
  mkError
    [0x50; 0x72; 0x69; 0x73; 0x6D; 0x61; 0x43; 0x6C; 0x69; 0x65; 0x6E; 0x74;
     0x49; 0x6E; 0x69; 0x74; 0x69; 0x61; 0x6C; 0x69; 0x7A; 0x61; 0x74; 0x69;
     0x6F; 0x6E; 0x45; 0x72; 0x72; 0x6F; 0x72]%N
    JUndefined.

Definition client : PrismaClient unit :=
  mkPrismaClient unit
    (fun _ db => (Throw Unreachable, db))
    (fun _ db => (Throw Unreachable, db))
    (fun _ db => (Throw Unreachable, db)).

End Outage.

(** Sample requests. *)
Module Sample.

(** "abc" *)
Definition abc : JsString := [0x61; 0x62; 0x63]%N.
(** "123abc" *)
Definition id_123abc : JsString := [0x31; 0x32; 0x33; 0x61; 0x62; 0x63]%N.
(** "0x" *)
Definition id_0x : JsString := [0x30; 0x78]%N.
(** "0x1A" *)
Definition id_0x1A : JsString := [0x30; 0x78; 0x31; 0x41]%N.
(** "1" and "2" *)
Definition id_1 : JsString := [0x31]%N.
Definition id_2 : JsString := [0x32]%N.
(** " hello " and "hello" *)
Definition padded_hello : JsString :=
  [0x20; 0x68; 0x65; 0x6C; 0x6C; 0x6F; 0x20]%N.
Definition hello : JsString := [0x68; 0x65; 0x6C; 0x6C; 0x6F]%N.

(** [{"content": " hello "}] *)
Definition body_hello : JsValue := JObj [(key_content, JStr padded_hello)].
(** [{"content": 42}] *)
Definition body_number : JsValue :=
  JObj [(key_content, JNum (number_of_Z 42))].

(** The store after [body_hello] was posted to an empty store. *)
Definition one_post : Store.Db := Store.after (PostPosts body_hello) Store.initial.

End Sample.

(** ** Vocabulary of the further properties *)

(** The responses a route can give: one status with one kind of body. *)
Definition route_response (r : Request) (rs : Res) : Prop :=
  match r with
  | GetPosts =>
      (∃ posts, rs = mkRes 200 (Some (BodyPosts posts)))
      ∨ rs = mkRes 500 (Some (BodyError msg_fetch_failed))
  | PostPosts _ =>
      (∃ post, rs = mkRes 201 (Some (BodyPost post)))
      ∨ rs = mkRes 400 (Some (BodyError msg_content_empty))
      ∨ rs = mkRes 500 (Some (BodyError msg_create_failed))
  | DeletePost _ =>
      rs = mkRes 200 (Some (BodyMessage msg_deleted))
      ∨ rs = mkRes 400 (Some (BodyError msg_invalid_id))
      ∨ rs = mkRes 404 (Some (BodyError msg_not_found))
      ∨ rs = mkRes 500 (Some (BodyError msg_delete_failed))
  end.

(** The Prisma call a route issues. *)
Definition route_call (r : Request) (c : PrismaCall) : Prop :=
  match r, c with
  | GetPosts, CallFindMany args => args = mkFindManyArgs desc
  | PostPosts _, CallCreate _ => True
  | DeletePost req_params_id, CallDelete where_id =>
      where_id = parseInt req_params_id
  | _, _ => False
  end.

(** A hexadecimal digit, as a code unit, and its value. *)
Definition hex_digit (c : N) : bool :=
  ((N.leb 0x30 c && N.leb c 0x39) || (N.leb 0x61 c && N.leb c 0x66)
   || (N.leb 0x41 c && N.leb c 0x46))%bool.

Definition hex_digit_value (c : N) : Z :=
  if (N.leb 0x30 c && N.leb c 0x39)%bool then Z.of_N c - 0x30
  else if (N.leb 0x61 c && N.leb c 0x66)%bool then Z.of_N c - 0x61 + 10
  else Z.of_N c - 0x41 + 10.

(** The integer a run of hexadecimal digits denotes. *)
Definition hexadecimal (digits : JsString) : Z :=
  fold_left (fun acc c => acc * 16 + hex_digit_value c) digits 0.

Definition starts_with_hex_digit (s : JsString) : bool :=
  match s with
  | c :: _ => hex_digit c
  | [] => false
  end.

(** The code unit of a sign: [-] when negative, [+] otherwise. *)
Definition sign_unit (negative : bool) : N := if negative then 0x2D%N else 0x2B%N.

(** Identifiers at the edge of what a Number holds exactly. *)
Module Edge.

(** "9007199254740993", that is 2^53 + 1 *)
Definition id_2_53_plus_1 : JsString :=
  [0x39; 0x30; 0x30; 0x37; 0x31; 0x39; 0x39; 0x32; 0x35; 0x34; 0x37; 0x34;
   0x30; 0x39; 0x39; 0x33]%N.

(** "-7" *)
Definition id_minus_7 : JsString := [0x2D; 0x37]%N.

End Edge.

(** * Properties *)

(** ** Trimming *)

Section Trim.

Lemma trimStart_nil_iff (s : JsString) :
  trimStart s = [] ↔ blank s = true.
Proof.
  induction s as [|c s IH]; simpl; [tauto|].
  destruct (is_white_space c); simpl; [exact IH|].
  split; discriminate.
Qed.

Lemma blank_rev (s : JsString) : blank (rev s) = blank s.
Proof.
  unfold blank. induction s as [|c s IH]; simpl; [reflexivity|].
  rewrite forallb_app, IH. simpl. rewrite andb_true_r. apply andb_comm.
Qed.

(** What [trimStart] leaves is empty or starts with a visible code unit. *)
Lemma trimStart_head (s : JsString) :
  trimStart s = [] ∨
  ∃ c rest, trimStart s = c :: rest ∧ is_white_space c = false.
Proof.
  induction s as [|c s IH]; simpl; [by left|].
  destruct (is_white_space c) eqn:Hc; [exact IH|].
  right. by exists c, s.
Qed.

Lemma trimStart_snoc (s : JsString) (c : N) :
  is_white_space c = false → trimStart (s ++ [c]) = trimStart s ++ [c].
Proof.
  intros Hc. induction s as [|d s IH]; simpl.
  - by rewrite Hc.
  - destruct (is_white_space d); [exact IH | reflexivity].
Qed.

Lemma trim_nil_iff (s : JsString) : trim s = [] ↔ blank s = true.
Proof.
  unfold trim, trimEnd. rewrite <- trimStart_nil_iff.
  split.
  - intros H. apply (f_equal (@rev N)) in H. rewrite rev_involutive in H.
    simpl in H. apply trimStart_nil_iff in H. rewrite blank_rev in H.
    destruct (trimStart_head s) as [E | (c & rest & E & Hc)]; [exact E|].
    rewrite E in H. simpl in H. by rewrite Hc in H.
  - intros ->. reflexivity.
Qed.

(** A trimmed string that is not empty has a visible first code unit, so
    it is not made of white space only. *)
Lemma trim_not_blank (s : JsString) :
  trim s ≠ [] → blank (trim s) = false.
Proof.
  intros Hne.
  destruct (trimStart_head s) as [E | (c & rest & E & Hc)].
  - exfalso. apply Hne. unfold trim. by rewrite E.
  - unfold trim, trimEnd. rewrite E. simpl rev.
    rewrite trimStart_snoc by exact Hc.
    rewrite rev_app_distr. simpl. by rewrite Hc.
Qed.

End Trim.

(** ** Numbers and [parseInt] *)

Section ParseInt.

Lemma shr_1_nonneg (mrs : shr_record) :
  0 ≤ shr_m mrs → 0 ≤ shr_m (shr_1 mrs).
Proof.
  destruct mrs as [m r s]. simpl.
  destruct m as [|p|p]; [done| |lia].
  intros _. destruct p; simpl; lia.
Qed.

Lemma iter_shr_1_nonneg (p : positive) (mrs : shr_record) :
  0 ≤ shr_m mrs → 0 ≤ shr_m (SpecFloat.iter_pos shr_1 p mrs).
Proof.
  revert mrs. induction p as [p IH|p IH|]; intros mrs H; simpl.
  - apply IH, IH, shr_1_nonneg, H.
  - apply IH, IH, H.
  - apply shr_1_nonneg, H.
Qed.

Lemma shr_fexp_nonneg (m e : Z) (l : location) :
  0 ≤ m → 0 ≤ shr_m (shr_fexp 53 1024 m e l).1.
Proof.
  intros Hm. unfold shr_fexp, shr.
  assert (0 ≤ shr_m (shr_record_of_loc m l)) as H0.
  { destruct l as [|[]]; exact Hm. }
  destruct (fexp 53 1024 (Zdigits2 m + e) - e); simpl; try exact H0.
  by apply iter_shr_1_nonneg.
Qed.

Lemma round_nearest_even_nonneg (m : Z) (l : location) :
  0 ≤ m → 0 ≤ round_nearest_even m l.
Proof.
  intros Hm. destruct l as [|[]]; simpl; try lia.
  destruct (Z.even m); lia.
Qed.

Lemma binary_round_aux_not_nan (sx : bool) (m e : Z) (l : location) :
  0 ≤ m → isNaN (binary_round_aux 53 1024 sx m e l) = false.
Proof.
  intros Hm. unfold binary_round_aux.
  pose proof (shr_fexp_nonneg m e l Hm) as H1.
  destruct (shr_fexp 53 1024 m e l) as [mrs' e'] eqn:E1. simpl in H1.
  pose proof (shr_fexp_nonneg _ e' loc_Exact
                (round_nearest_even_nonneg _ (loc_of_shr_record mrs') H1)) as H2.
  destruct (shr_fexp 53 1024 _ e' loc_Exact) as [mrs'' e''] eqn:E2.
  simpl in H2.
  destruct (shr_m mrs'') as [|q|q]; [done| |lia].
  by destruct (e'' <=? 1024 - 53).
Qed.

(** Converting an integer never gives NaN. *)
Lemma number_of_Z_not_nan (z : Z) : isNaN (number_of_Z z) = false.
Proof.
  unfold number_of_Z, binary_normalize, binary_round.
  destruct z as [|p|p]; [done| |].
  - destruct (shl_align p 0 _) as [mz ez].
    by apply binary_round_aux_not_nan.
  - destruct (shl_align p 0 _) as [mz ez].
    by apply binary_round_aux_not_nan.
Qed.

Lemma decimal_digit_value (c : N) :
  decimal_digit c = true → digit_value 10 c = Some (Z.of_N c - 0x30).
Proof.
  unfold decimal_digit, digit_value. intros H. rewrite H.
  apply andb_true_iff in H as [_ H2]. apply N.leb_le in H2.
  destruct (Z.ltb_spec (Z.of_N c - 0x30) 10); [done|lia].
Qed.

Lemma not_decimal_digit_value (c : N) :
  decimal_digit c = false → digit_value 10 c = None.
Proof.
  unfold decimal_digit, digit_value. intros H. rewrite H.
  destruct (N.leb 0x61 c && N.leb c 0x7A)%bool eqn:E1.
  - apply andb_true_iff in E1 as [E1 _]. apply N.leb_le in E1.
    destruct (Z.ltb_spec (Z.of_N c - 0x61 + 10) 10); [lia|done].
  - destruct (N.leb 0x41 c && N.leb c 0x5A)%bool eqn:E2; [|done].
    apply andb_true_iff in E2 as [E2 _]. apply N.leb_le in E2.
    destruct (Z.ltb_spec (Z.of_N c - 0x41 + 10) 10); [lia|done].
Qed.

Lemma decimal_digit_not_white_space (c : N) :
  decimal_digit c = true → is_white_space c = false.
Proof.
  unfold decimal_digit, is_white_space. intros H.
  apply andb_true_iff in H as [H1 H2].
  apply N.leb_le in H1. apply N.leb_le in H2.
  repeat match goal with
         | |- context [N.eqb c ?k] =>
             destruct (N.eqb_spec c k); [lia|]
         | |- context [N.leb ?k c] =>
             destruct (N.leb_spec k c); [lia|]
         end.
  reflexivity.
Qed.

Lemma leading_digits_decimal (digits rest : JsString) :
  forallb decimal_digit digits = true →
  starts_with_decimal_digit rest = false →
  leading_digits 10 (digits ++ rest) = (λ c, Z.of_N c - 0x30) <$> digits.
Proof.
  intros Hd Hr. induction digits as [|c digits IH].
  - destruct rest as [|c rest]; [done|]. rewrite app_nil_l.
    cbn [starts_with_decimal_digit] in Hr. cbn [leading_digits].
    by rewrite not_decimal_digit_value.
  - cbn [forallb] in Hd. apply andb_true_iff in Hd as [Hc Hd].
    rewrite <- app_comm_cons. cbn [leading_digits].
    rewrite (decimal_digit_value c Hc), fmap_cons. f_equal. by apply IH.
Qed.

Lemma digits_value_decimal (digits : JsString) (acc : Z) :
  fold_left (λ a d, a * 10 + d) ((λ c, Z.of_N c - 0x30) <$> digits) acc
  = fold_left (λ a c, a * 10 + (Z.of_N c - 0x30)) digits acc.
Proof.
  revert acc. induction digits as [|c digits IH]; intros acc; simpl; [done|].
  apply IH.
Qed.

(** [parseInt] on a string that starts with a run of decimal digits and
    has no hexadecimal prefix: the Number for the integer the run
    denotes. *)
Lemma parseInt_decimal_prefix (digits rest : JsString) :
  digits ≠ [] →
  forallb decimal_digit digits = true →
  starts_with_decimal_digit rest = false →
  hex_prefix (digits ++ rest) = false →
  parseInt (digits ++ rest) = number_of_Z (decimal digits).
Proof.
  intros Hne Hd Hr Hx.
  destruct digits as [|c digits]; [done|]. clear Hne.
  pose proof Hd as Hd'. cbn [forallb] in Hd'.
  apply andb_true_iff in Hd' as [Hc _].
  pose proof (decimal_digit_not_white_space c Hc) as Hws.
  assert (read_sign ((c :: digits) ++ rest) = (false, (c :: digits) ++ rest))
    as Hsign.
  { rewrite <- app_comm_cons. unfold read_sign.
    unfold decimal_digit in Hc. apply andb_true_iff in Hc as [H1 _].
    apply N.leb_le in H1.
    destruct (N.eqb_spec c 0x2D); [lia|].
    destruct (N.eqb_spec c 0x2B); [lia|done]. }
  unfold parseInt.
  replace (trimStart ((c :: digits) ++ rest)) with ((c :: digits) ++ rest)
    by (rewrite <- app_comm_cons; cbn [trimStart]; by rewrite Hws).
  rewrite Hsign. unfold read_radix. rewrite Hx.
  rewrite (leading_digits_decimal (c :: digits) rest Hd Hr).
  rewrite fmap_cons. cbv beta iota.
  rewrite <- (fmap_cons (λ c0 : N, Z.of_N c0 - 0x30)).
  unfold digits_value. rewrite digits_value_decimal. fold (decimal (c :: digits)).
  destruct (Z.eqb_spec (decimal (c :: digits)) 0) as [E|E].
  - by rewrite E.
  - reflexivity.
Qed.

End ParseInt.

(** ** The handlers over any Prisma client *)

Ltac step_handler :=
  unfold content_is_blank, prisma_post_findMany, prisma_post_create,
    prisma_post_delete;
  unfold try_catch, bind, ret, eval, await_prisma, res_status, res_json,
    console_error;
  cbn [database console calls res sent statusCode negb call_trim app].

Ltac run_handler :=
  unfold serve, fresh, app;
  unfold get_api_posts, post_api_posts, delete_api_posts_id;
  step_handler.

Section AnyClient.

Context {DB : Type}.
Variable prisma : PrismaClient DB.

(** The three bindings of the destructuring succeed or fail together. *)
Lemma destructure_any_key (req_body content : JsValue) (key key' : JsString) :
  destructure req_body key = Normal content →
  ∃ v, destructure req_body key' = Normal v.
Proof. destruct req_body; simpl; intros H; try discriminate; eauto. Qed.

(** GET: what the response is for either outcome of [findMany]. *)
Lemma get_api_posts_outcome (db : DB) :
  serve (get_api_posts prisma) db =
  match post_findMany prisma (mkFindManyArgs desc) db with
  | (Normal posts, db') =>
      (Normal tt,
       mkWorld db' [] [mkCallRecord (CallFindMany (mkFindManyArgs desc)) None]
               (mkRes 200 (Some (BodyPosts posts))))
  | (Throw e, db') =>
      (Normal tt,
       mkWorld db' [(label_fetching, e)]
               [mkCallRecord (CallFindMany (mkFindManyArgs desc)) (Some e)]
               (mkRes 500 (Some (BodyError msg_fetch_failed))))
  end.
Proof.
  run_handler.
  by destruct (post_findMany prisma (mkFindManyArgs desc) db) as [[posts|e] db'].
Qed.

(** POST with a [content] that fails the check. *)
Lemma post_api_posts_rejected (db : DB) (req_body content : JsValue) :
  destructure req_body key_content = Normal content →
  truthy content = false ∨ (∃ s, content = JStr s ∧ trim s = []) →
  serve (post_api_posts prisma req_body) db =
  (Normal tt,
   mkWorld db [] [] (mkRes 400 (Some (BodyError msg_content_empty)))).
Proof.
  intros Hc Hblank.
  destruct (destructure_any_key _ _ _ key_imageUrl Hc) as [imageUrl Hi].
  destruct (destructure_any_key _ _ _ key_userId Hc) as [userId Hu].
  run_handler. rewrite Hc, Hi, Hu.
  destruct Hblank as [Hfalsy | (s & -> & Hs)].
  - by rewrite Hfalsy.
  - destruct (truthy (JStr s)); step_handler; [|done].
    by rewrite Hs.
Qed.

(** POST with a [content] that passes the check: what the response is for
    either outcome of [create]. *)
Lemma post_api_posts_outcome (db : DB) (req_body imageUrl userId : JsValue)
    (s : JsString) :
  destructure req_body key_content = Normal (JStr s) →
  destructure req_body key_imageUrl = Normal imageUrl →
  destructure req_body key_userId = Normal userId →
  trim s ≠ [] →
  let data := mkPostData (trim s) (js_or imageUrl JNull) (js_or userId JNull) in
  serve (post_api_posts prisma req_body) db =
  match post_create prisma data db with
  | (Normal post, db') =>
      (Normal tt,
       mkWorld db' [] [mkCallRecord (CallCreate data) None]
               (mkRes 201 (Some (BodyPost post))))
  | (Throw e, db') =>
      (Normal tt,
       mkWorld db' [(label_creating, e)]
               [mkCallRecord (CallCreate data) (Some e)]
               (mkRes 500 (Some (BodyError msg_create_failed))))
  end.
Proof.
  intros Hc Hi Hu Hs data.
  assert (truthy (JStr s) = true) as Ht.
  { destruct s; [done|reflexivity]. }
  run_handler. rewrite Hc, Hi, Hu, Ht. step_handler.
  unfold jsstring_eqb. rewrite bool_decide_eq_false_2 by exact Hs.
  step_handler. fold data.
  by destruct (post_create prisma data db) as [[post|e] db'].
Qed.

(** POST when evaluating the body raises a TypeError: [req.body] cannot be
    destructured, or [content] is truthy and has no [trim]. *)
Lemma post_api_posts_type_error (db : DB) (req_body : JsValue) :
  destructure req_body key_content = Throw TypeError ∨
  (∃ content, destructure req_body key_content = Normal content ∧
              truthy content = true ∧ ∀ s, content ≠ JStr s) →
  serve (post_api_posts prisma req_body) db =
  (Normal tt,
   mkWorld db [(label_creating, TypeError)] []
           (mkRes 500 (Some (BodyError msg_create_failed)))).
Proof.
  intros [Hthrow | (content & Hc & Ht & Hns)].
  - run_handler. by rewrite Hthrow.
  - destruct (destructure_any_key _ _ _ key_imageUrl Hc) as [imageUrl Hi].
    destruct (destructure_any_key _ _ _ key_userId Hc) as [userId Hu].
    run_handler. rewrite Hc, Hi, Hu, Ht. step_handler.
    destruct content; try done. by destruct (Hns s).
Qed.

(** DELETE with an identifier that parses to NaN. *)
Lemma delete_api_posts_id_rejected (db : DB) (req_params_id : JsString) :
  isNaN (parseInt req_params_id) = true →
  serve (delete_api_posts_id prisma req_params_id) db =
  (Normal tt, mkWorld db [] [] (mkRes 400 (Some (BodyError msg_invalid_id)))).
Proof. intros H. run_handler. cbv zeta. by rewrite H. Qed.

(** DELETE with an identifier that parses to a number: what the response
    is for each outcome of [delete]. *)
Lemma delete_api_posts_id_outcome (db : DB) (req_params_id : JsString) :
  isNaN (parseInt req_params_id) = false →
  let id := parseInt req_params_id in
  serve (delete_api_posts_id prisma req_params_id) db =
  match post_delete prisma id db with
  | (Normal _, db') =>
      (Normal tt,
       mkWorld db' [] [mkCallRecord (CallDelete id) None]
               (mkRes 200 (Some (BodyMessage msg_deleted))))
  | (Throw e, db') =>
      (Normal tt,
       mkWorld db' [(label_deleting, e)]
               [mkCallRecord (CallDelete id) (Some e)]
               (if strict_equals_string (err_code e) P2025
                then mkRes 404 (Some (BodyError msg_not_found))
                else mkRes 500 (Some (BodyError msg_delete_failed))))
  end.
Proof.
  intros H id. run_handler. cbv zeta. rewrite H. step_handler. fold id.
  destruct (post_delete prisma id db) as [[post|e] db']; [done|].
  step_handler.
  by destruct (strict_equals_string (err_code e) P2025).
Qed.

End AnyClient.

Section AnyClientCases.

Context {DB : Type}.
Variable prisma : PrismaClient DB.

Lemma content_cases (content : JsValue) :
  truthy content = false ∨
  (∃ s, content = JStr s ∧ truthy content = true) ∨
  (truthy content = true ∧ ∀ s, content ≠ JStr s).
Proof.
  destruct (truthy content) eqn:Ht; [|by left]. right.
  destruct content; try (right; split; [reflexivity | intros ?; discriminate]).
  left. by exists s.
Qed.

Lemma destructure_cases (req_body : JsValue) (key : JsString) :
  destructure req_body key = Throw TypeError ∨
  ∃ v, destructure req_body key = Normal v.
Proof. destruct req_body; simpl; eauto. Qed.

(** The three ways a POST can go: rejected by the check, stopped by a
    TypeError, or handed to [create]. *)
Lemma post_api_posts_cases (db : DB) (req_body : JsValue) :
  (∃ content,
      destructure req_body key_content = Normal content ∧
      (truthy content = false ∨ ∃ s, content = JStr s ∧ trim s = []) ∧
      serve (post_api_posts prisma req_body) db =
      (Normal tt,
       mkWorld db [] [] (mkRes 400 (Some (BodyError msg_content_empty)))))
  ∨ serve (post_api_posts prisma req_body) db =
    (Normal tt,
     mkWorld db [(label_creating, TypeError)] []
             (mkRes 500 (Some (BodyError msg_create_failed))))
  ∨ (∃ s imageUrl userId,
        destructure req_body key_content = Normal (JStr s) ∧
        destructure req_body key_imageUrl = Normal imageUrl ∧
        destructure req_body key_userId = Normal userId ∧
        trim s ≠ []).
Proof.
  destruct (destructure_cases req_body key_content) as [Hthrow | [content Hc]].
  { right; left. apply post_api_posts_type_error. by left. }
  destruct (content_cases content) as [Hf | [(s & -> & Ht) | [Ht Hns]]].
  - left. exists content. split; [done|]. split; [by left|].
    eapply post_api_posts_rejected; eauto.
  - destruct (decide (trim s = [])) as [Hs | Hs].
    + left. exists (JStr s). split; [done|]. split; [right; eauto|].
      eapply post_api_posts_rejected; eauto.
    + right; right.
      destruct (destructure_any_key _ _ _ key_imageUrl Hc) as [imageUrl Hi].
      destruct (destructure_any_key _ _ _ key_userId Hc) as [userId Hu].
      by exists s, imageUrl, userId.
  - right; left. apply post_api_posts_type_error. right. eauto.
Qed.

End AnyClientCases.

(** ** Create: validation *)




(** C9. A create request whose [content] is truthy and not a string is
    answered with status 500 and the fixed creation-failure message: the call
    of [trim] raises a TypeError, which the [catch] logs.  No Prisma call is
    made and the database is the one the request found. *)
Theorem create_non_string_content_500 {DB : Type} (prisma : PrismaClient DB)
    (db : DB) (req_body content : JsValue) :
  destructure req_body key_content = Normal content →
  truthy content = true →
  (∀ s, content ≠ JStr s) →
  call_trim content = Throw TypeError
  ∧ serve (post_api_posts prisma req_body) db =
    (Normal tt,
     mkWorld db [(label_creating, TypeError)] []
             (mkRes 500 (Some (BodyError msg_create_failed)))).
Proof.
  intros Hc Ht Hns. split.
  - destruct content; try reflexivity. by destruct (Hns s).
  - apply post_api_posts_type_error. right. by exists content.
Qed.

Lemma create_non_string_content_500_witness :
  call_trim (JNum (number_of_Z 42)) = Throw TypeError
  ∧ serve (post_api_posts Store.client Sample.body_number) Sample.one_post =
    (Normal tt,
     mkWorld Sample.one_post [(label_creating, TypeError)] []
             (mkRes 500 (Some (BodyError msg_create_failed)))).
Proof.
  apply (create_non_string_content_500 Store.client Sample.one_post
           Sample.body_number (JNum (number_of_Z 42))).
  - reflexivity.
  - reflexivity.
  - intros s. discriminate.
Defined.

(** ** Delete: validation *)

(** C5. A delete request whose path identifier parses to NaN is answered
    with status 400 and the fixed message; no Prisma call is made, nothing is
    logged and the database is the one the request found. *)
Theorem delete_non_numeric_id_400 {DB : Type} (prisma : PrismaClient DB)
    (db : DB) (req_params_id : JsString) :
  isNaN (parseInt req_params_id) = true →
  serve (delete_api_posts_id prisma req_params_id) db =
  (Normal tt, mkWorld db [] [] (mkRes 400 (Some (BodyError msg_invalid_id)))).
Proof. apply delete_api_posts_id_rejected. Qed.

Lemma delete_non_numeric_id_400_witness :
  isNaN (parseInt Sample.abc) = true
  ∧ serve (delete_api_posts_id Store.client Sample.abc) Sample.one_post =
    (Normal tt,
     mkWorld Sample.one_post [] [] (mkRes 400 (Some (BodyError msg_invalid_id)))).
Proof.
  split; [reflexivity|].
  apply (delete_non_numeric_id_400 Store.client Sample.one_post Sample.abc).
  reflexivity.
Defined.

(** The identifier ["0x"] starts with the digit [0], which a non-digit
    follows, so its leading integer is 0; yet [parseInt] reads a hexadecimal
    prefix with no digit after it and gives NaN: the request is answered
    with status 400 and no delete is attempted. *)
Lemma delete_hex_prefix_counterexample :
  Sample.id_0x = [0x30]%N ++ [0x78]%N
  ∧ forallb decimal_digit [0x30]%N = true
  ∧ starts_with_decimal_digit [0x78]%N = false
  ∧ decimal [0x30]%N = 0
  ∧ parseInt Sample.id_0x = S754_nan
  ∧ serve (delete_api_posts_id Store.client Sample.id_0x) Sample.one_post =
    (Normal tt,
     mkWorld Sample.one_post [] [] (mkRes 400 (Some (BodyError msg_invalid_id))))
  ∧ ¬ (parseInt Sample.id_0x = number_of_Z (decimal [0x30]%N)
       ∨ statusCode (res (serve (delete_api_posts_id Store.client Sample.id_0x)
                            Sample.one_post).2) ≠ 400
       ∨ calls (serve (delete_api_posts_id Store.client Sample.id_0x)
                  Sample.one_post).2 ≠ []).
Proof.
  repeat (split; [reflexivity|]).
  intros [H | [H | H]].
  - discriminate H.
  - apply H. reflexivity.
  - apply H. reflexivity.
Qed.

(** With digits after the prefix the delete is attempted, against the
    hexadecimal value: ["0x1A"] selects id 26, not 0. *)
Example delete_hex_prefix_value :
  parseInt Sample.id_0x1A = number_of_Z 26
  ∧ calls (serve (delete_api_posts_id Store.client Sample.id_0x1A)
             Sample.one_post).2
    = [mkCallRecord (CallDelete (number_of_Z 26)) (Some Store.RecordNotFound)].
Proof. split; reflexivity. Qed.

(** ** Failures of the persistence layer *)

(** C7. Whatever the Prisma client does, a handler completes normally: no
    error leaves it.  When a Prisma call of the request rejected, other than
    with the record-not-found code on the delete route, the answer is status
    500 with the route's fixed message, which does not depend on the error,
    and the error was written to the console under the route's label. *)
Theorem persistence_failure_500 {DB : Type} (prisma : PrismaClient DB)
    (r : Request) (db : DB) :
  let out := serve (app prisma r) db in
  out.1 = Normal tt
  ∧ ∀ c e,
      mkCallRecord c (Some e) ∈ calls out.2 →
      not_found_on_delete r e = false →
      res out.2 = mkRes 500 (Some (BodyError (failure_message r)))
      ∧ console out.2 = [(failure_label r, e)].
Proof.
  destruct r as [|req_body|req_params_id]; cbn [app].
  - rewrite get_api_posts_outcome.
    destruct (post_findMany prisma _ db) as [[posts|e0] db']; cbn [fst snd res calls console].
    + split; [done|]. intros c e Hin _.
      apply list_elem_of_singleton in Hin. discriminate.
    + split; [done|]. intros c e Hin _.
      apply list_elem_of_singleton in Hin. by inversion Hin.
  - destruct (post_api_posts_cases prisma db req_body)
      as [(content & _ & _ & ->) | [-> | (s & imageUrl & userId & Hc & Hi & Hu & Hs)]];
      cbn [fst snd res calls console].
    + split; [done|]. intros c e Hin. by apply elem_of_nil in Hin.
    + split; [done|]. intros c e Hin. by apply elem_of_nil in Hin.
    + rewrite (post_api_posts_outcome prisma db req_body imageUrl userId s Hc Hi Hu Hs).
      destruct (post_create prisma _ db) as [[post|e0] db']; cbn [fst snd res calls console].
      * split; [done|]. intros c e Hin _.
        apply list_elem_of_singleton in Hin. discriminate.
      * split; [done|]. intros c e Hin _.
        apply list_elem_of_singleton in Hin. by inversion Hin.
  - destruct (isNaN (parseInt req_params_id)) eqn:Hnan.
    + rewrite (delete_api_posts_id_rejected prisma db req_params_id Hnan).
      cbn [fst snd res calls console].
      split; [done|]. intros c e Hin. by apply elem_of_nil in Hin.
    + rewrite (delete_api_posts_id_outcome prisma db req_params_id Hnan).
      cbv zeta.
      destruct (post_delete prisma _ db) as [[post|e0] db']; cbn [fst snd res calls console].
      * split; [done|]. intros c e Hin _.
        apply list_elem_of_singleton in Hin. discriminate.
      * split; [done|]. intros c e Hin Hcode.
        apply list_elem_of_singleton in Hin. inversion Hin; subst.
        cbn [not_found_on_delete] in Hcode. by rewrite Hcode.
Qed.

Lemma persistence_failure_500_witness :
  (serve (app Outage.client (DeletePost Sample.id_1)) tt).1 = Normal tt
  ∧ res (serve (app Outage.client (DeletePost Sample.id_1)) tt).2
    = mkRes 500 (Some (BodyError msg_delete_failed))
  ∧ console (serve (app Outage.client (DeletePost Sample.id_1)) tt).2
    = [(label_deleting, Outage.Unreachable)].
Proof.
  pose proof (persistence_failure_500 Outage.client (DeletePost Sample.id_1) tt)
    as [Hnormal Hfailure].
  split; [exact Hnormal|].
  apply (Hfailure (CallDelete (parseInt Sample.id_1)) Outage.Unreachable).
  - apply list_elem_of_singleton. reflexivity.
  - reflexivity.
Defined.

(** ** The store *)

#[global] Instance newer_first_total : Total Store.newer_first.
Proof. intros p q. unfold Store.newer_first. lia. Qed.

#[global] Instance newer_first_transitive : Transitive Store.newer_first.
Proof. intros p q r. unfold Store.newer_first. lia. Qed.

Section StoreFacts.

Import Store.

Lemma listing_sorted (db : Db) :
  listing db = merge_sort newer_first (all_posts db).
Proof. reflexivity. Qed.

Lemma elem_of_all_posts (db : Db) (p : Post) :
  p ∈ all_posts db ↔
  ∃ row, table db !! post_id p = Some row ∧ p = post_of (post_id p, row).
Proof.
  unfold all_posts. rewrite list_elem_of_fmap. split.
  - intros ([k row] & -> & Hin). apply elem_of_map_to_list in Hin.
    by exists row.
  - intros (row & Hrow & Hp). exists (post_id p, row).
    split; [exact Hp|]. by apply elem_of_map_to_list.
Qed.

Lemma elem_of_listing (db : Db) (p : Post) :
  p ∈ listing db ↔
  ∃ row, table db !! post_id p = Some row ∧ p = post_of (post_id p, row).
Proof.
  rewrite listing_sorted, merge_sort_Permutation. apply elem_of_all_posts.
Qed.

Lemma integer_of_number_not_nan (n : Number) (k : Z) :
  integer_of_number n = Some k → isNaN n = false.
Proof. by destruct n. Qed.

Lemma find_unique_some (db : Db) (n : Number) (k : Z) (row : Row) :
  integer_of_number n = Some k → table db !! k = Some row →
  find_unique n db = Some (k, row).
Proof. intros Hk Hrow. unfold find_unique. by rewrite Hk, Hrow. Qed.

Lemma find_unique_none (db : Db) (n : Number) :
  (∀ k, integer_of_number n = Some k → table db !! k = None) →
  find_unique n db = None.
Proof.
  intros H. unfold find_unique.
  destruct (integer_of_number n) as [k|]; [|done].
  by rewrite (H k).
Qed.

(** *** What a request does to the store *)

Lemma after_GetPosts (db : Db) : after GetPosts db = db.
Proof. reflexivity. Qed.

Lemma after_PostPosts (db : Db) (req_body : JsValue) :
  after (PostPosts req_body) db = db ∨
  ∃ s imageUrl userId,
    trim s ≠ [] ∧
    after (PostPosts req_body) db =
    mkDb (<[next_id db := mkRow (trim s) imageUrl userId (now db)]> (table db))
         (next_id db + 1) (now db).
Proof.
  unfold after. cbn [app].
  destruct (post_api_posts_cases client db req_body)
    as [(content & _ & _ & ->) | [-> | (s & imageUrl & userId & Hc & Hi & Hu & Hs)]];
    [by left | by left |].
  right. exists s, (js_or imageUrl JNull), (js_or userId JNull).
  split; [exact Hs|].
  by rewrite (post_api_posts_outcome client db req_body imageUrl userId s Hc Hi Hu Hs).
Qed.

Lemma after_DeletePost (db : Db) (req_params_id : JsString) :
  after (DeletePost req_params_id) db = db ∨
  ∃ k, after (DeletePost req_params_id) db =
       mkDb (base.delete k (table db)) (next_id db) (now db).
Proof.
  unfold after. cbn [app].
  destruct (isNaN (parseInt req_params_id)) eqn:Hnan.
  - left. by rewrite (delete_api_posts_id_rejected client db _ Hnan).
  - rewrite (delete_api_posts_id_outcome client db _ Hnan). cbv zeta.
    cbn [post_delete client]. unfold delete.
    destruct (find_unique (parseInt req_params_id) db) as [[k row]|].
    + right. by exists k.
    + by left.
Qed.

(** *** Invariants of the reachable stores *)

Lemma keys_below_next_initial : keys_below_next initial.
Proof. intros k [row H]. cbn [table initial] in H. by rewrite lookup_empty in H. Qed.

Lemma keys_below_next_after (r : Request) (db : Db) :
  keys_below_next db → keys_below_next (after r db).
Proof.
  intros Hinv. destruct r as [|req_body|req_params_id].
  - by rewrite after_GetPosts.
  - destruct (after_PostPosts db req_body)
      as [-> | (s & imageUrl & userId & _ & ->)]; [done|].
    intros k [row Hk]. cbn [table next_id] in *.
    destruct (decide (k = next_id db)) as [->|Hne]; [lia|].
    rewrite lookup_insert_ne in Hk by done.
    specialize (Hinv k (ex_intro _ row Hk)). lia.
  - destruct (after_DeletePost db req_params_id) as [-> | [j ->]]; [done|].
    intros k [row Hk]. cbn [table next_id] in *.
    destruct (decide (k = j)) as [->|Hne].
    + by rewrite lookup_delete_eq in Hk.
    + rewrite lookup_delete_ne in Hk by done.
      exact (Hinv k (ex_intro _ row Hk)).
Qed.

Lemma reachable_keys_below_next (db : Db) :
  reachable db → keys_below_next db.
Proof.
  induction 1 as [|r db _ IH|t db _ IH].
  - exact keys_below_next_initial.
  - by apply keys_below_next_after.
  - exact IH.
Qed.

Lemma content_invariant_initial : content_invariant initial.
Proof. intros k row H. cbn [table initial] in H. by rewrite lookup_empty in H. Qed.

(** Each request keeps the invariant: a listing changes nothing, a create
    stores a trimmed string that was checked not to be empty, a delete
    only removes a row. *)
Lemma content_invariant_after (r : Request) (db : Db) :
  content_invariant db → content_invariant (after r db).
Proof.
  intros Hinv. destruct r as [|req_body|req_params_id].
  - by rewrite after_GetPosts.
  - destruct (after_PostPosts db req_body)
      as [-> | (s & imageUrl & userId & Hs & ->)]; [done|].
    intros k row Hk. cbn [table] in Hk.
    destruct (decide (k = next_id db)) as [->|Hne].
    + rewrite lookup_insert_eq in Hk. inversion Hk; subst. cbn [row_content].
      by apply trim_not_blank.
    + rewrite lookup_insert_ne in Hk by done. by eapply Hinv.
  - destruct (after_DeletePost db req_params_id) as [-> | [j ->]]; [done|].
    intros k row Hk. cbn [table] in Hk.
    destruct (decide (k = j)) as [->|Hne].
    + by rewrite lookup_delete_eq in Hk.
    + rewrite lookup_delete_ne in Hk by done. by eapply Hinv.
Qed.

End StoreFacts.


(** ** Listing *)

(** C3. On every store, a list request is answered with status 200 and a
    body listing the stored posts, each exactly as stored and nothing else,
    in an order where no post is older than one that comes after it; on a
    store without posts the body is the empty list.  The handler makes one
    call, [findMany] ordered by [createdAt] descending, logs nothing and
    leaves the store as it was. *)
Theorem list_newest_first (db : Store.Db) :
  serve (get_api_posts Store.client) db =
  (Normal tt,
   mkWorld db [] [mkCallRecord (CallFindMany (mkFindManyArgs desc)) None]
           (mkRes 200 (Some (BodyPosts (Store.listing db)))))
  ∧ StronglySorted Store.newer_first (Store.listing db)
  ∧ Store.listing db ≡ₚ Store.all_posts db
  ∧ (∀ p, p ∈ Store.listing db ↔
          ∃ row, Store.table db !! post_id p = Some row ∧
                 p = Store.post_of (post_id p, row))
  ∧ (Store.table db = ∅ → Store.listing db = []).
Proof.
  split; [reflexivity|].
  split; [rewrite listing_sorted; apply StronglySorted_merge_sort; apply _|].
  split; [rewrite listing_sorted; apply merge_sort_Permutation|].
  split; [apply elem_of_listing|].
  intros Hempty. rewrite listing_sorted. unfold Store.all_posts.
  by rewrite Hempty, map_to_list_empty.
Qed.

Lemma list_newest_first_witness :
  Store.listing Store.initial = [].
Proof.
  apply (list_newest_first Store.initial). reflexivity.
Defined.

(** ** Delete *)

(** C6. When the path identifier parses to the id of a stored post, the
    delete request is answered with status 200 and the fixed confirmation;
    the store loses the row with that id and keeps every other row as it
    was, so that the next listing has every post of the previous one except
    the deleted one. *)
Theorem delete_existing_post (db : Store.Db) (req_params_id : JsString)
    (k : Z) (row : Store.Row) :
  Store.integer_of_number (parseInt req_params_id) = Some k →
  Store.table db !! k = Some row →
  let db' := Store.mkDb (delete k (Store.table db)) (Store.next_id db)
                        (Store.now db) in
  serve (delete_api_posts_id Store.client req_params_id) db =
  (Normal tt,
   mkWorld db' [] [mkCallRecord (CallDelete (parseInt req_params_id)) None]
           (mkRes 200 (Some (BodyMessage msg_deleted))))
  ∧ Store.table db' !! k = None
  ∧ (∀ j, j ≠ k → Store.table db' !! j = Store.table db !! j)
  ∧ (∀ p, p ∈ Store.listing db' ↔ p ∈ Store.listing db ∧ post_id p ≠ k).
Proof.
  intros Hk Hrow db'.
  pose proof (integer_of_number_not_nan _ _ Hk) as Hnan.
  split.
  { rewrite (delete_api_posts_id_outcome Store.client db _ Hnan). cbv zeta.
    cbn [post_delete Store.client]. unfold Store.delete.
    by rewrite (find_unique_some db _ k row Hk Hrow). }
  split; [apply lookup_delete_eq|].
  split; [intros j Hj; by apply lookup_delete_ne|].
  intros p. rewrite !elem_of_listing. cbn [Store.table db'].
  destruct (decide (post_id p = k)) as [Heq|Hne].
  - rewrite Heq, lookup_delete_eq. split.
    + intros (r & Hr & _). discriminate.
    + intros [_ Hcontra]. done.
  - rewrite lookup_delete_ne by done. split.
    + intros H. by split.
    + by intros [H _].
Qed.

Lemma delete_existing_post_witness :
  serve (delete_api_posts_id Store.client Sample.id_1) Sample.one_post =
  (Normal tt,
   mkWorld (Store.mkDb (delete 1 (Store.table Sample.one_post)) 2 0) []
           [mkCallRecord (CallDelete (parseInt Sample.id_1)) None]
           (mkRes 200 (Some (BodyMessage msg_deleted))))
  ∧ Store.listing (Store.mkDb (delete 1 (Store.table Sample.one_post)) 2 0) = [].
Proof.
  pose proof (delete_existing_post Sample.one_post Sample.id_1 1
                (Store.mkRow Sample.hello JNull JNull 0)) as H.
  cbv zeta in H.
  destruct H as (Hserve & _ & _ & _).
  - reflexivity.
  - reflexivity.
  - split; [exact Hserve | reflexivity].
Defined.

(** C4. When the path identifier parses to a number that is the id of no
    stored post, the store rejects the delete with the record-not-found
    code and stays as it was, and the request is answered with status 404
    and the fixed message.  Over any Prisma client, the delete route answers
    404 exactly when its delete call rejected with that code. *)
Theorem delete_missing_post_404 (db : Store.Db) (req_params_id : JsString) :
  isNaN (parseInt req_params_id) = false →
  (∀ k, Store.integer_of_number (parseInt req_params_id) = Some k →
        Store.table db !! k = None) →
  post_delete Store.client (parseInt req_params_id) db
  = (Throw Store.RecordNotFound, db)
  ∧ err_code Store.RecordNotFound = JStr P2025
  ∧ serve (delete_api_posts_id Store.client req_params_id) db =
    (Normal tt,
     mkWorld db [(label_deleting, Store.RecordNotFound)]
             [mkCallRecord (CallDelete (parseInt req_params_id))
                           (Some Store.RecordNotFound)]
             (mkRes 404 (Some (BodyError msg_not_found))))
  ∧ (∀ (DB : Type) (prisma : PrismaClient DB) (d : DB) (i : JsString),
        statusCode (res (serve (delete_api_posts_id prisma i) d).2) = 404 ↔
        isNaN (parseInt i) = false ∧
        ∃ e, (post_delete prisma (parseInt i) d).1 = Throw e ∧
             err_code e = JStr P2025).
Proof.
  intros Hnan Hmissing.
  assert (post_delete Store.client (parseInt req_params_id) db
          = (Throw Store.RecordNotFound, db)) as Hdelete.
  { cbn [post_delete Store.client]. unfold Store.delete.
    by rewrite (find_unique_none db _ Hmissing). }
  split; [exact Hdelete|]. split; [reflexivity|]. split.
  { rewrite (delete_api_posts_id_outcome Store.client db _ Hnan). cbv zeta.
    by rewrite Hdelete. }
  intros DB prisma d i.
  destruct (isNaN (parseInt i)) eqn:Hi.
  - rewrite (delete_api_posts_id_rejected prisma d i Hi). cbn [snd res statusCode].
    split; [discriminate | intros [? _]; discriminate].
  - rewrite (delete_api_posts_id_outcome prisma d i Hi). cbv zeta.
    destruct (post_delete prisma (parseInt i) d) as [[post|e] d'];
      cbn [fst snd res statusCode].
    + split; [discriminate | intros [_ (e & He & _)]; discriminate].
    + destruct (strict_equals_string (err_code e) P2025) eqn:Hcode;
        cbn [statusCode].
      * split; [intros _ | done]. split; [done|]. exists e. split; [done|].
        unfold strict_equals_string in Hcode.
        destruct (err_code e); try discriminate.
        unfold jsstring_eqb in Hcode. apply bool_decide_eq_true in Hcode.
        by rewrite Hcode.
      * split; [discriminate|]. intros [_ (e' & He' & Hc')].
        inversion He'; subst e'. rewrite Hc' in Hcode.
        unfold strict_equals_string, jsstring_eqb in Hcode.
        by rewrite bool_decide_eq_true_2 in Hcode.
Qed.

Lemma delete_missing_post_404_witness :
  serve (delete_api_posts_id Store.client Sample.id_2) Sample.one_post =
  (Normal tt,
   mkWorld Sample.one_post [(label_deleting, Store.RecordNotFound)]
           [mkCallRecord (CallDelete (parseInt Sample.id_2))
                         (Some Store.RecordNotFound)]
           (mkRes 404 (Some (BodyError msg_not_found)))).
Proof.
  apply (delete_missing_post_404 Sample.one_post Sample.id_2).
  - reflexivity.
  - intros k Hk. vm_compute in Hk. inversion Hk; subst k. reflexivity.
Defined.

(** ** Create *)

(** C1. Take a create request whose [content] is a string that is not empty
    once trimmed.  The handler makes one Prisma call: [create] with the
    trimmed [content], with [imageUrl] replaced by [null] when it is falsy
    and [userId] replaced by [null] when it is falsy.  With any client whose
    [create] resolves, the answer is status 201 with the post the client
    returned.  On the store, [create] resolves: the answer is status 201 with
    a post that has these three fields, the id and the creation time the
    store assigned; that post is in the next listing, and when the store's
    key sequence is ahead of its keys the id was unused and every other row
    is as it was. *)
Theorem create_valid_content (props : list (JsString * JsValue)) (s : JsString) :
  own_property props key_content = JStr s →
  trim s ≠ [] →
  let imageUrl := own_property props key_imageUrl in
  let userId := own_property props key_userId in
  let data := mkPostData (trim s) (js_or imageUrl JNull) (js_or userId JNull) in
  (truthy imageUrl = false → data_imageUrl data = JNull)
  ∧ (truthy userId = false → data_userId data = JNull)
  ∧ (∀ (DB : Type) (prisma : PrismaClient DB) (db db' : DB) (post : Post),
        post_create prisma data db = (Normal post, db') →
        serve (post_api_posts prisma (JObj props)) db =
        (Normal tt,
         mkWorld db' [] [mkCallRecord (CallCreate data) None]
                 (mkRes 201 (Some (BodyPost post)))))
  ∧ (∀ db : Store.Db,
        let post := mkPost (Store.next_id db) (trim s) (data_imageUrl data)
                           (data_userId data) (Store.now db) in
        let db' := Store.after (PostPosts (JObj props)) db in
        serve (post_api_posts Store.client (JObj props)) db =
        (Normal tt,
         mkWorld db' [] [mkCallRecord (CallCreate data) None]
                 (mkRes 201 (Some (BodyPost post))))
        ∧ post ∈ Store.listing db'
        ∧ (Store.keys_below_next db →
           Store.table db !! post_id post = None
           ∧ ∀ j, j ≠ post_id post → Store.table db' !! j = Store.table db !! j)).
Proof.
  intros Hc Hs imageUrl userId data.
  assert (∀ (DB : Type) (prisma : PrismaClient DB) (db : DB),
             serve (post_api_posts prisma (JObj props)) db =
             match post_create prisma data db with
             | (Normal post, db') =>
                 (Normal tt,
                  mkWorld db' [] [mkCallRecord (CallCreate data) None]
                          (mkRes 201 (Some (BodyPost post))))
             | (Throw e, db') =>
                 (Normal tt,
                  mkWorld db' [(label_creating, e)]
                          [mkCallRecord (CallCreate data) (Some e)]
                          (mkRes 500 (Some (BodyError msg_create_failed))))
             end) as Hout.
  { intros DB prisma db.
    apply (post_api_posts_outcome prisma db (JObj props) imageUrl userId s);
      [by cbn [destructure]; rewrite Hc | reflexivity | reflexivity | exact Hs]. }
  split. { intros Hf. cbn [data_imageUrl data]. unfold js_or. by rewrite Hf. }
  split. { intros Hf. cbn [data_userId data]. unfold js_or. by rewrite Hf. }
  split. { intros DB prisma db db' post Hcreate. by rewrite Hout, Hcreate. }
  intros db post db'.
  assert (db' = Store.mkDb
                  (<[Store.next_id db :=
                       Store.mkRow (trim s) (data_imageUrl data)
                                   (data_userId data) (Store.now db)]>
                     (Store.table db))
                  (Store.next_id db + 1) (Store.now db)) as Hdb'.
  { unfold db', Store.after. cbn [app]. by rewrite Hout. }
  split. { rewrite Hout. cbn [post_create Store.client]. unfold Store.create.
           by rewrite Hdb'. }
  split.
  { apply elem_of_listing. rewrite Hdb'. cbn [Store.table post_id post].
    eexists. split; [apply lookup_insert_eq | reflexivity]. }
  intros Hkeys. cbn [post_id post]. split.
  - destruct (Store.table db !! Store.next_id db) as [row|] eqn:Hrow; [|done].
    specialize (Hkeys _ (ex_intro _ row Hrow)). lia.
  - intros j Hj. rewrite Hdb'. cbn [Store.table]. by apply lookup_insert_ne.
Qed.

Lemma create_valid_content_witness :
  serve (post_api_posts Store.client Sample.body_hello) Store.initial =
  (Normal tt,
   mkWorld Sample.one_post []
           [mkCallRecord (CallCreate (mkPostData Sample.hello JNull JNull)) None]
           (mkRes 201 (Some (BodyPost (mkPost 1 Sample.hello JNull JNull 0)))))
  ∧ Store.table Store.initial !! 1 = None.
Proof.
  pose proof (create_valid_content [(key_content, JStr Sample.padded_hello)]
                Sample.padded_hello) as H.
  cbv zeta in H.
  destruct H as (Himage & Huser & Hany & Hstore).
  - reflexivity.
  - discriminate.
  - destruct (Hstore Store.initial) as (Hserve & _ & Hnew).
    split; [exact Hserve|].
    exact (proj1 (Hnew keys_below_next_initial)).
Defined.

(** ** The content invariant *)

(** C8. Every request keeps the invariant that no stored [content] is
    empty or made of white space only, and in every store that requests and
    the passing of time can make of the empty store, the [content] of every
    row is a non-empty string with a code unit that is not white space. *)
Theorem stored_content_never_blank (db : Store.Db) :
  (Store.content_invariant db →
   ∀ r, Store.content_invariant (Store.after r db))
  ∧ (Store.reachable db →
     ∀ k row, Store.table db !! k = Some row →
              Store.row_content row ≠ [] ∧ blank (Store.row_content row) = false).
Proof.
  split.
  - intros Hinv r. by apply content_invariant_after.
  - intros Hreach.
    assert (Store.content_invariant db) as Hinv.
    { induction Hreach as [|r db _ IH|t db _ IH].
      - exact content_invariant_initial.
      - by apply content_invariant_after.
      - exact IH. }
    intros k row Hrow. specialize (Hinv k row Hrow). split; [|exact Hinv].
    intros Hnil. by rewrite Hnil in Hinv.
Qed.

Lemma stored_content_never_blank_witness :
  Store.content_invariant (Store.after (PostPosts Sample.body_hello) Store.initial)
  ∧ Store.row_content (Store.mkRow Sample.hello JNull JNull 0) ≠ []
  ∧ blank (Store.row_content (Store.mkRow Sample.hello JNull JNull 0)) = false.
Proof.
  split.
  - apply (proj1 (stored_content_never_blank Store.initial)).
    exact content_invariant_initial.
  - apply (proj2 (stored_content_never_blank Sample.one_post)) with (k := 1).
    + apply Store.reachable_request, Store.reachable_initial.
    + reflexivity.
Defined.

(** ** The end-to-end scenario *)

(** Posting [{"content": " hello "}] to the empty store, listing, deleting
    id 1 and deleting it again: 201, 200 with the one post, 200, 404. *)
Example scenario :
  let db1 := Store.after (PostPosts Sample.body_hello) Store.initial in
  let db2 := Store.after (DeletePost Sample.id_1) db1 in
  res (serve (app Store.client (PostPosts Sample.body_hello)) Store.initial).2
  = mkRes 201 (Some (BodyPost (mkPost 1 Sample.hello JNull JNull 0)))
  ∧ res (serve (app Store.client GetPosts) db1).2
    = mkRes 200 (Some (BodyPosts [mkPost 1 Sample.hello JNull JNull 0]))
  ∧ res (serve (app Store.client (DeletePost Sample.id_1)) db1).2
    = mkRes 200 (Some (BodyMessage msg_deleted))
  ∧ res (serve (app Store.client (DeletePost Sample.id_1)) db2).2
    = mkRes 404 (Some (BodyError msg_not_found))
  ∧ Store.after (DeletePost Sample.id_1) db2 = db2.
Proof. repeat split. Qed.

(** * Further properties of the handlers *)

(** ** Every route, over any Prisma client *)

(** The paths through a handler: each goal has the world the request
    leaves. *)
Ltac route_cases prisma r db :=
  destruct r as [|req_body|req_params_id]; cbn [app];
  [ rewrite (get_api_posts_outcome prisma db);
    destruct (post_findMany prisma (mkFindManyArgs desc) db) as [[posts|e] db']
  | destruct (post_api_posts_cases prisma db req_body)
      as [(content & Hc & Hwhy & ->)
         | [-> | (s & imageUrl & userId & Hc & Hi & Hu & Hs)]];
    [ | | rewrite (post_api_posts_outcome prisma db req_body imageUrl userId s
                      Hc Hi Hu Hs);
          destruct (post_create prisma _ db) as [[post|e] db'] ]
  | destruct (isNaN (parseInt req_params_id)) eqn:Hnan;
    [ rewrite (delete_api_posts_id_rejected prisma db req_params_id Hnan)
    | rewrite (delete_api_posts_id_outcome prisma db req_params_id Hnan);
      cbv zeta;
      destruct (post_delete prisma (parseInt req_params_id) db)
        as [[post|e] db'];
      [ | destruct (strict_equals_string (err_code e) P2025) eqn:Hcode ] ] ];
  cbn [fst snd res calls console database statusCode sent].

(** Every request gets exactly one response, and it is one of the few the
    route can give: a status with its own body, the texts being fixed. *)
Theorem response_table {DB : Type} (prisma : PrismaClient DB)
    (r : Request) (db : DB) :
  route_response r (res (serve (app prisma r) db).2).
Proof.
  route_cases prisma r db; cbn [route_response]; eauto 6.
Qed.

(** A request issues at most one Prisma call, the one of its route; when it
    issues none the database is left as it was found. *)
Theorem at_most_one_call {DB : Type} (prisma : PrismaClient DB)
    (r : Request) (db : DB) :
  let out := serve (app prisma r) db in
  (calls out.2 = [] ∧ database out.2 = db)
  ∨ ∃ c rej, calls out.2 = [mkCallRecord c rej] ∧ route_call r c.
Proof.
  route_cases prisma r db;
    try (left; split; reflexivity);
    right; eexists _, _; (split; [reflexivity|]); cbn [route_call]; done.
Qed.

(** A success status (200 or 201) is answered exactly when the request
    issued a Prisma call and that call resolved. *)
Theorem success_iff_call_resolved {DB : Type} (prisma : PrismaClient DB)
    (r : Request) (db : DB) :
  let out := serve (app prisma r) db in
  (statusCode (res out.2) = 200 ∨ statusCode (res out.2) = 201)
  ↔ ∃ c, calls out.2 = [mkCallRecord c None].
Proof.
  route_cases prisma r db;
    (split;
     [ intros [H | H]; try discriminate H; eexists; reflexivity
     | intros [c H]; try discriminate H; auto ]).
Qed.

(** The console gets a line exactly when the answer is 404 or 500: one
    line, under the route's label, with the error that was caught.  A
    request answered 200, 201 or 400 logs nothing. *)
Theorem console_iff_failure {DB : Type} (prisma : PrismaClient DB)
    (r : Request) (db : DB) :
  let out := serve (app prisma r) db in
  (console out.2 = []
   ∧ (statusCode (res out.2) = 200 ∨ statusCode (res out.2) = 201
      ∨ statusCode (res out.2) = 400))
  ∨ (∃ e, console out.2 = [(failure_label r, e)]
          ∧ (statusCode (res out.2) = 404 ∨ statusCode (res out.2) = 500)).
Proof.
  route_cases prisma r db; cbn [failure_label];
    first [ left; split; [reflexivity | tauto]
          | right; eexists; split; [reflexivity | tauto] ].
Qed.

(** ** Create: the shape of the request body *)

(** A body that is [undefined] or [null] cannot be destructured: the
    TypeError is caught and the answer is 500.  A body that is an array, a
    string, a number or a boolean has no [content]: the answer is 400.
    Neither reaches the Prisma client. *)
Theorem create_body_not_an_object {DB : Type} (prisma : PrismaClient DB)
    (db : DB) (req_body : JsValue) :
  (∀ props, req_body ≠ JObj props) →
  serve (post_api_posts prisma req_body) db =
  match req_body with
  | JUndefined | JNull =>
      (Normal tt,
       mkWorld db [(label_creating, TypeError)] []
               (mkRes 500 (Some (BodyError msg_create_failed))))
  | _ =>
      (Normal tt,
       mkWorld db [] [] (mkRes 400 (Some (BodyError msg_content_empty))))
  end.
Proof.
  intros Hobj.
  destruct req_body; try (by destruct (Hobj props));
    try (apply post_api_posts_type_error; by left);
    (apply (post_api_posts_rejected prisma db _ JUndefined);
     [reflexivity | by left]).
Qed.

Lemma create_body_not_an_object_witness :
  serve (post_api_posts Store.client (JArr [JStr Sample.hello])) Sample.one_post =
  (Normal tt,
   mkWorld Sample.one_post [] [] (mkRes 400 (Some (BodyError msg_content_empty)))).
Proof.
  apply (create_body_not_an_object Store.client Sample.one_post
           (JArr [JStr Sample.hello])).
  intros props. discriminate.
Defined.

(** ** Delete: how the path identifier is read *)

Section ReadingTheIdentifier.

Context {DB : Type}.
Variable prisma : PrismaClient DB.

Lemma parseInt_steps (input body s : JsString) (negative : bool) (radix : Z) :
  read_sign (trimStart input) = (negative, body) →
  read_radix body = (radix, s) →
  parseInt input =
  match leading_digits radix s with
  | [] => S754_nan
  | ds =>
      let mathInt := digits_value radix ds in
      if mathInt =? 0 then S754_zero negative
      else number_of_Z (if negative then - mathInt else mathInt)
  end.
Proof. intros H1 H2. unfold parseInt. by rewrite H1, H2. Qed.

(** [parseInt] gives NaN exactly when it finds no digit. *)
Lemma parseInt_nan_iff (input body s : JsString) (negative : bool) (radix : Z) :
  read_sign (trimStart input) = (negative, body) →
  read_radix body = (radix, s) →
  isNaN (parseInt input) = true ↔ leading_digits radix s = [].
Proof.
  intros H1 H2. rewrite (parseInt_steps _ _ _ _ _ H1 H2).
  destruct (leading_digits radix s) as [|d ds]; [done|].
  cbv zeta. destruct (digits_value radix (d :: ds) =? 0).
  - split; discriminate.
  - rewrite number_of_Z_not_nan. split; discriminate.
Qed.

Lemma trimStart_blank_app (ws s : JsString) :
  blank ws = true → trimStart (ws ++ s) = trimStart s.
Proof.
  induction ws as [|c ws IH]; [done|].
  cbn [blank forallb]. intros H. apply andb_true_iff in H as [Hc Hws].
  rewrite <- app_comm_cons. cbn [trimStart]. rewrite Hc. by apply IH.
Qed.

(** The handler uses the identifier only through [parseInt]. *)
Lemma delete_api_posts_id_parseInt (a b : JsString) (db : DB) :
  parseInt a = parseInt b →
  serve (delete_api_posts_id prisma a) db
  = serve (delete_api_posts_id prisma b) db.
Proof. intros H. unfold serve, delete_api_posts_id. by rewrite H. Qed.

(** When the identifier parses to a number the delete is attempted with
    it, and the answer is not 400. *)
Lemma delete_attempted (db : DB) (req_params_id : JsString) (n : Number) :
  parseInt req_params_id = n →
  isNaN n = false →
  statusCode (res (serve (delete_api_posts_id prisma req_params_id) db).2) ≠ 400
  ∧ calls (serve (delete_api_posts_id prisma req_params_id) db).2 =
    [mkCallRecord (CallDelete n) (rejection_of (post_delete prisma n db).1)].
Proof.
  intros Hparse Hn.
  assert (isNaN (parseInt req_params_id) = false) as Hnan by (by rewrite Hparse).
  rewrite (delete_api_posts_id_outcome prisma db req_params_id Hnan).
  cbv zeta. rewrite Hparse.
  destruct (post_delete prisma n db) as [[post|e] db']; cbn [fst snd res calls].
  - split; [discriminate | reflexivity].
  - split; [|reflexivity].
    by destruct (strict_equals_string (err_code e) P2025).
Qed.

Lemma leading_digits_10_nil_iff (s : JsString) :
  leading_digits 10 s = [] ↔ starts_with_decimal_digit s = false.
Proof.
  destruct s as [|c s]; [done|]. cbn [leading_digits starts_with_decimal_digit].
  destruct (decimal_digit c) eqn:Hc.
  - rewrite (decimal_digit_value c Hc). split; discriminate.
  - by rewrite (not_decimal_digit_value c Hc).
Qed.

Lemma hex_digit_value_16 (c : N) :
  digit_value 16 c = if hex_digit c then Some (hex_digit_value c) else None.
Proof.
  unfold digit_value, hex_digit, hex_digit_value.
  destruct (N.leb 0x30 c && N.leb c 0x39)%bool eqn:E0.
  { apply andb_true_iff in E0 as [H1 H2].
    apply N.leb_le in H1. apply N.leb_le in H2. cbn [orb].
    destruct (Z.ltb_spec (Z.of_N c - 0x30) 16); [done|lia]. }
  cbn [orb].
  destruct (N.leb 0x61 c && N.leb c 0x7A)%bool eqn:E1.
  { apply andb_true_iff in E1 as [H1 H2].
    apply N.leb_le in H1. apply N.leb_le in H2.
    destruct (N.leb_spec c 0x66) as [Hf|Hf].
    - replace (N.leb 0x61 c) with true by (symmetry; by apply N.leb_le).
      cbn [andb orb].
      destruct (Z.ltb_spec (Z.of_N c - 0x61 + 10) 16); [done|lia].
    - rewrite andb_false_r. cbn [orb].
      replace (N.leb 0x41 c && N.leb c 0x46)%bool with false
        by (symmetry; apply andb_false_iff; right; apply N.leb_gt; lia).
      destruct (Z.ltb_spec (Z.of_N c - 0x61 + 10) 16); [lia|done]. }
  assert ((N.leb 0x61 c && N.leb c 0x66)%bool = false) as ->.
  { apply andb_false_iff. apply andb_false_iff in E1 as [E1|E1]; [by left|].
    right. apply N.leb_gt in E1. apply N.leb_gt. lia. }
  cbn [orb].
  destruct (N.leb 0x41 c && N.leb c 0x5A)%bool eqn:E2.
  - apply andb_true_iff in E2 as [H1 H2].
    apply N.leb_le in H1. apply N.leb_le in H2.
    replace (N.leb 0x41 c) with true by (symmetry; by apply N.leb_le).
    cbn [andb].
    destruct (N.leb_spec c 0x46) as [Hf|Hf].
    + destruct (Z.ltb_spec (Z.of_N c - 0x41 + 10) 16); [done|lia].
    + destruct (Z.ltb_spec (Z.of_N c - 0x41 + 10) 16); [lia|done].
  - assert ((N.leb 0x41 c && N.leb c 0x46)%bool = false) as ->; [|done].
    apply andb_false_iff. apply andb_false_iff in E2 as [E2|E2]; [by left|].
    right. apply N.leb_gt in E2. apply N.leb_gt. lia.
Qed.

Lemma leading_digits_16_nil_iff (s : JsString) :
  leading_digits 16 s = [] ↔ starts_with_hex_digit s = false.
Proof.
  destruct s as [|c s]; [done|]. cbn [leading_digits starts_with_hex_digit].
  rewrite hex_digit_value_16. destruct (hex_digit c); [|done].
  split; discriminate.
Qed.

Lemma leading_digits_hexadecimal (digits rest : JsString) :
  forallb hex_digit digits = true →
  starts_with_hex_digit rest = false →
  leading_digits 16 (digits ++ rest) = hex_digit_value <$> digits.
Proof.
  intros Hd Hr. induction digits as [|c digits IH].
  - rewrite app_nil_l. by apply leading_digits_16_nil_iff.
  - cbn [forallb] in Hd. apply andb_true_iff in Hd as [Hc Hd].
    rewrite <- app_comm_cons. cbn [leading_digits].
    rewrite hex_digit_value_16, Hc, fmap_cons. f_equal. by apply IH.
Qed.

Lemma digits_value_hexadecimal (digits : JsString) (acc : Z) :
  fold_left (λ a d, a * 16 + d) (hex_digit_value <$> digits) acc
  = fold_left (λ a c, a * 16 + hex_digit_value c) digits acc.
Proof.
  revert acc. induction digits as [|c digits IH]; intros acc; [done|].
  rewrite fmap_cons. cbn [fold_left]. apply IH.
Qed.

Lemma hex_prefix_starts_with_digit (s : JsString) :
  hex_prefix s = true → starts_with_decimal_digit s = true.
Proof.
  destruct s as [|c0 [|c1 s]]; try discriminate.
  cbn [hex_prefix starts_with_decimal_digit]. intros H.
  apply andb_true_iff in H as [H _]. apply N.eqb_eq in H. by subst c0.
Qed.

End ReadingTheIdentifier.

(** A delete request is answered 400 exactly when, past leading white space
    and one optional sign, the identifier does not start with a decimal
    digit, or starts with [0x] or [0X] with no hexadecimal digit after
    it. *)
Theorem delete_400_iff_no_digit {DB : Type} (prisma : PrismaClient DB)
    (db : DB) (req_params_id : JsString) :
  let body := (read_sign (trimStart req_params_id)).2 in
  statusCode (res (serve (delete_api_posts_id prisma req_params_id) db).2) = 400
  ↔ starts_with_decimal_digit body = false
    ∨ (hex_prefix body = true ∧ starts_with_hex_digit (drop 2 body) = false).
Proof.
  intros body.
  assert (isNaN (parseInt req_params_id) = true
          ↔ starts_with_decimal_digit body = false
            ∨ (hex_prefix body = true ∧ starts_with_hex_digit (drop 2 body) = false))
    as Hnan_iff.
  { destruct (read_sign (trimStart req_params_id)) as [negative body0] eqn:Hsign.
    subst body. cbn [snd].
    destruct (hex_prefix body0) eqn:Hx.
    - rewrite (parseInt_nan_iff req_params_id body0 (drop 2 body0) negative 16 Hsign)
        by (unfold read_radix; by rewrite Hx).
      rewrite leading_digits_16_nil_iff.
      rewrite (hex_prefix_starts_with_digit _ Hx). split.
      + intros H. by right.
      + intros [H | [_ H]]; [discriminate | exact H].
    - rewrite (parseInt_nan_iff req_params_id body0 body0 negative 10 Hsign)
        by (unfold read_radix; by rewrite Hx).
      rewrite leading_digits_10_nil_iff. split.
      + intros H. by left.
      + intros [H | [H _]]; [exact H | discriminate]. }
  rewrite <- Hnan_iff.
  destruct (isNaN (parseInt req_params_id)) eqn:Hnan.
  - by rewrite (delete_api_posts_id_rejected prisma db _ Hnan).
  - split; [|discriminate]. intros H. exfalso.
    by apply (proj1 (delete_attempted prisma db req_params_id _ eq_refl Hnan)).
Qed.

(** White space before the identifier makes no difference to a delete. *)
Theorem delete_ignores_leading_white_space {DB : Type}
    (prisma : PrismaClient DB) (db : DB) (ws req_params_id : JsString) :
  blank ws = true →
  serve (delete_api_posts_id prisma (ws ++ req_params_id)) db
  = serve (delete_api_posts_id prisma req_params_id) db.
Proof.
  intros Hws. apply delete_api_posts_id_parseInt.
  unfold parseInt. by rewrite trimStart_blank_app.
Qed.

Lemma delete_ignores_leading_white_space_witness :
  serve (delete_api_posts_id Store.client ([0x20; 0x09]%N ++ Sample.id_1))
        Sample.one_post
  = serve (delete_api_posts_id Store.client Sample.id_1) Sample.one_post.
Proof.
  apply (delete_ignores_leading_white_space Store.client Sample.one_post
           [0x20; 0x09]%N Sample.id_1).
  reflexivity.
Defined.

(** ** Create: what [trim] keeps *)

Section TrimKeeps.

Lemma trimStart_decompose (s : JsString) :
  ∃ l, s = l ++ trimStart s ∧ blank l = true.
Proof.
  induction s as [|c s (l & Hl & Hb)]; [by exists []|].
  cbn [trimStart]. destruct (is_white_space c) eqn:Hc.
  - exists (c :: l). split; [by rewrite <- app_comm_cons, <- Hl|].
    cbn [blank forallb]. by rewrite Hc.
  - by exists [].
Qed.

Lemma trimEnd_decompose (t : JsString) :
  ∃ r, t = trimEnd t ++ r ∧ blank r = true.
Proof.
  destruct (trimStart_decompose (rev t)) as (l & Hl & Hb).
  exists (rev l). split; [|by rewrite blank_rev].
  unfold trimEnd. rewrite <- rev_app_distr, <- Hl. by rewrite rev_involutive.
Qed.

Lemma trim_first_visible (s : JsString) (c : N) (rest : JsString) :
  trim s = c :: rest → is_white_space c = false.
Proof.
  unfold trim, trimEnd.
  destruct (trimStart_head s) as [E | (d & r & E & Hd)]; rewrite E.
  - discriminate.
  - simpl rev. rewrite trimStart_snoc by exact Hd.
    rewrite rev_app_distr. simpl. intros H. by inversion H; subst.
Qed.

Lemma trim_last_visible (s : JsString) (init : JsString) (c : N) :
  trim s = init ++ [c] → is_white_space c = false.
Proof.
  unfold trim, trimEnd. intros H.
  apply (f_equal (@rev N)) in H. rewrite rev_involutive, rev_app_distr in H.
  simpl in H.
  destruct (trimStart_head (rev (trimStart s))) as [E | (d & r & E & Hd)];
    rewrite E in H; [discriminate|].
  by inversion H; subst.
Qed.

Lemma trimStart_visible (c : N) (rest : JsString) :
  is_white_space c = false → trimStart (c :: rest) = c :: rest.
Proof. intros H. cbn [trimStart]. by rewrite H. Qed.

Lemma trim_idempotent (s : JsString) : trim (trim s) = trim s.
Proof.
  destruct (trim s) as [|c rest] eqn:Ht; [reflexivity|].
  pose proof (trim_first_visible s c rest Ht) as Hc.
  unfold trim at 1. rewrite (trimStart_visible c rest Hc).
  unfold trimEnd.
  destruct (rev (c :: rest)) as [|d r] eqn:Hrev.
  { apply (f_equal (@rev N)) in Hrev. rewrite rev_involutive in Hrev.
    discriminate. }
  assert (c :: rest = rev r ++ [d]) as Hlast.
  { apply (f_equal (@rev N)) in Hrev. by rewrite rev_involutive in Hrev. }
  rewrite <- Ht in Hlast.
  pose proof (trim_last_visible s (rev r) d Hlast) as Hd.
  rewrite (trimStart_visible d r Hd). by rewrite <- Hrev, rev_involutive.
Qed.

End TrimKeeps.

(** The [content] handed to [create] is the request's [content] with white
    space taken off both ends and nothing else changed: the request's
    string is white space, then the created content, then white space, and
    the created content starts and ends with a code unit that is not white
    space. *)
Theorem created_content_is_input_without_margins {DB : Type}
    (prisma : PrismaClient DB) (db : DB) (req_body : JsValue) (s : JsString)
    (data : PostData) (rej : option JsError) :
  destructure req_body key_content = Normal (JStr s) →
  mkCallRecord (CallCreate data) rej
    ∈ calls (serve (post_api_posts prisma req_body) db).2 →
  ∃ l r,
    s = l ++ data_content data ++ r
    ∧ blank l = true ∧ blank r = true
    ∧ (∃ c rest, data_content data = c :: rest ∧ is_white_space c = false)
    ∧ (∃ init c, data_content data = init ++ [c] ∧ is_white_space c = false).
Proof.
  intros Hcontent Hin.
  assert (data_content data = trim s ∧ trim s ≠ []) as [Hdata Hne].
  { destruct (post_api_posts_cases prisma db req_body)
      as [(content & Hc & Hwhy & Hserve)
         | [Hserve | (s' & imageUrl & userId & Hc & Hi & Hu & Hs)]].
    - rewrite Hserve in Hin. by apply elem_of_nil in Hin.
    - rewrite Hserve in Hin. by apply elem_of_nil in Hin.
    - rewrite Hcontent in Hc. inversion Hc; subst s'.
      rewrite (post_api_posts_outcome prisma db req_body imageUrl userId s
                 Hcontent Hi Hu Hs) in Hin.
      destruct (post_create prisma _ db) as [[post|e] db'];
        cbn [snd calls] in Hin; apply list_elem_of_singleton in Hin;
        inversion Hin; subst; by split. }
  rewrite Hdata.
  destruct (trimStart_decompose s) as (l & Hl & Hbl).
  destruct (trimEnd_decompose (trimStart s)) as (r & Hr & Hbr).
  exists l, r. fold (trim s) in Hr.
  split; [by rewrite <- Hr|]. split; [exact Hbl|]. split; [exact Hbr|].
  split.
  - destruct (trim s) as [|c rest] eqn:Ht; [done|].
    exists c, rest. split; [reflexivity|]. by apply (trim_first_visible s c rest).
  - destruct (rev (trim s)) as [|d q] eqn:Hrev.
    { apply (f_equal (@rev N)) in Hrev. rewrite rev_involutive in Hrev. done. }
    assert (trim s = rev q ++ [d]) as Hlast.
    { apply (f_equal (@rev N)) in Hrev. by rewrite rev_involutive in Hrev. }
    exists (rev q), d. split; [exact Hlast|].
    by apply (trim_last_visible s (rev q) d).
Qed.

Lemma created_content_is_input_without_margins_witness :
  ∃ l r,
    Sample.padded_hello = l ++ Sample.hello ++ r
    ∧ blank l = true ∧ blank r = true
    ∧ (∃ c rest, Sample.hello = c :: rest ∧ is_white_space c = false)
    ∧ (∃ init c, Sample.hello = init ++ [c] ∧ is_white_space c = false).
Proof.
  apply (created_content_is_input_without_margins Store.client Store.initial
           Sample.body_hello Sample.padded_hello
           (mkPostData Sample.hello JNull JNull) None).
  - reflexivity.
  - apply list_elem_of_singleton. reflexivity.
Defined.

(** Trimming is idempotent, so a [content] that is already trimmed, such as
    the content of a post created earlier, is handed to [create] as it
    is. *)
Theorem create_keeps_trimmed_content {DB : Type} (prisma : PrismaClient DB)
    (db : DB) (props : list (JsString * JsValue)) (s : JsString) :
  own_property props key_content = JStr (trim s) →
  trim s ≠ [] →
  trim (trim s) = trim s
  ∧ ∃ imageUrl userId rej,
      calls (serve (post_api_posts prisma (JObj props)) db).2
      = [mkCallRecord (CallCreate (mkPostData (trim s) imageUrl userId)) rej].
Proof.
  intros Hc Hs. split; [apply trim_idempotent|].
  assert (trim (trim s) ≠ []) as Hs' by (by rewrite trim_idempotent).
  rewrite (post_api_posts_outcome prisma db (JObj props)
             (own_property props key_imageUrl) (own_property props key_userId)
             (trim s));
    [|by cbn [destructure]; rewrite Hc | reflexivity | reflexivity | exact Hs'].
  rewrite trim_idempotent.
  destruct (post_create prisma _ db) as [[post|e] db']; cbn [snd calls]; eauto.
Qed.

Lemma create_keeps_trimmed_content_witness :
  trim (trim Sample.padded_hello) = trim Sample.padded_hello
  ∧ ∃ imageUrl userId rej,
      calls (serve (post_api_posts Store.client
                      (JObj [(key_content, JStr (trim Sample.padded_hello))]))
                   Sample.one_post).2
      = [mkCallRecord
           (CallCreate (mkPostData (trim Sample.padded_hello) imageUrl userId))
           rej].
Proof.
  apply (create_keeps_trimmed_content Store.client Sample.one_post
           [(key_content, JStr (trim Sample.padded_hello))] Sample.padded_hello).
  - reflexivity.
  - discriminate.
Defined.

(** ** Integers as Numbers *)

Section ExactIntegers.

Lemma digits2_pos_bounds (p : positive) :
  2 ^ (Z.pos (digits2_pos p) - 1) ≤ Z.pos p < 2 ^ Z.pos (digits2_pos p).
Proof.
  induction p as [p IH|p IH|]; cbn [digits2_pos].
  - rewrite Pos2Z.inj_succ.
    replace (Z.succ (Z.pos (digits2_pos p)) - 1)
      with (Z.succ (Z.pos (digits2_pos p) - 1)) by lia.
    rewrite !Z.pow_succ_r by lia. lia.
  - rewrite Pos2Z.inj_succ.
    replace (Z.succ (Z.pos (digits2_pos p)) - 1)
      with (Z.succ (Z.pos (digits2_pos p) - 1)) by lia.
    rewrite !Z.pow_succ_r by lia. lia.
  - simpl. lia.
Qed.

Lemma digits2_pos_le_53 (p : positive) :
  Z.pos p < 2 ^ 53 → Z.pos (digits2_pos p) ≤ 53.
Proof.
  intros Hp. pose proof (digits2_pos_bounds p) as [Hlo _].
  destruct (Z.le_gt_cases (Z.pos (digits2_pos p)) 53) as [H|H]; [exact H|].
  exfalso.
  assert (2 ^ 53 ≤ 2 ^ (Z.pos (digits2_pos p) - 1)) as Hpow
    by (apply Z.pow_le_mono_r; lia).
  lia.
Qed.

Lemma shift_left_value (p k : positive) :
  Z.pos (Pos.iter xO p k) = Z.pos p * 2 ^ Z.pos k.
Proof.
  induction k as [|k IH] using Pos.peano_ind.
  - simpl. lia.
  - rewrite Pos.iter_succ, Pos2Z.inj_succ, Z.pow_succ_r by lia.
    pose proof IH as IH'. lia.
Qed.

Lemma shift_left_digits (p k : positive) :
  digits2_pos (Pos.iter xO p k) = (digits2_pos p + k)%positive.
Proof.
  induction k as [|k IH] using Pos.peano_ind.
  - simpl. lia.
  - rewrite Pos.iter_succ. cbn [digits2_pos]. rewrite IH. lia.
Qed.

(** A 53-bit mantissa with an exponent in range is kept as it is. *)
Lemma binary_round_aux_exact (sx : bool) (m : positive) (e : Z) :
  digits2_pos m = 53%positive → -1074 ≤ e ≤ 971 →
  binary_round_aux 53 1024 sx (Z.pos m) e loc_Exact = S754_finite sx m e.
Proof.
  intros Hd He.
  assert (shr_fexp 53 1024 (Z.pos m) e loc_Exact
          = ({| shr_m := Z.pos m; shr_r := false; shr_s := false |}, e)) as Hshr.
  { unfold shr_fexp, fexp, emin. cbn [Zdigits2 shr_record_of_loc]. rewrite Hd.
    replace (Z.max (53 + e - 53) (3 - 1024 - 53) - e) with 0 by lia.
    reflexivity. }
  unfold binary_round_aux. rewrite Hshr.
  cbn [shr_m loc_of_shr_record round_nearest_even]. rewrite Hshr.
  cbn [shr_m].
  destruct (Z.leb_spec e (1024 - 53)); [reflexivity | lia].
Qed.

Lemma binary_round_exact (sx : bool) (p : positive) :
  Z.pos p < 2 ^ 53 →
  ∃ m e, binary_round 53 1024 sx p 0 = S754_finite sx m e
         ∧ -52 ≤ e ≤ 0 ∧ Z.pos m = Z.pos p * 2 ^ (- e).
Proof.
  intros Hp. pose proof (digits2_pos_le_53 p Hp) as Hd.
  unfold binary_round, shl_align, fexp, emin.
  replace (Z.max (Z.pos (digits2_pos p) + 0 - 53) (3 - 1024 - 53) - 0)
    with (Z.pos (digits2_pos p) - 53) by lia.
  replace (Z.max (Z.pos (digits2_pos p) + 0 - 53) (3 - 1024 - 53))
    with (Z.pos (digits2_pos p) - 53) by lia.
  destruct (Z.pos (digits2_pos p) - 53) as [|k|k] eqn:Hk; [|lia|].
  - exists p, 0. split; [|split; [lia | simpl; lia]].
    apply binary_round_aux_exact; lia.
  - exists (Pos.iter xO p k), (Z.neg k). split; [|split; [lia|]].
    + apply binary_round_aux_exact; [|lia].
      rewrite shift_left_digits. lia.
    + rewrite shift_left_value. reflexivity.
Qed.

(** An integer below 2^53 in absolute value is its own Number: converting
    it and reading the Number back gives the integer. *)
Lemma integer_of_number_of_Z (z : Z) :
  - 2 ^ 53 < z < 2 ^ 53 →
  Store.integer_of_number (number_of_Z z) = Some z.
Proof.
  intros Hz. unfold number_of_Z, binary_normalize.
  assert (∀ sx p, Z.pos p < 2 ^ 53 →
            Store.integer_of_number (binary_round 53 1024 sx p 0)
            = Some (if sx then - Z.pos p else Z.pos p)) as Hround.
  { intros sx p Hp.
    destruct (binary_round_exact sx p Hp) as (m & e & -> & He & Hm).
    unfold Store.integer_of_number.
    destruct (Z.leb_spec 0 e) as [H0|H0].
    - assert (e = 0) as -> by lia. simpl in Hm. cbn [fmap option_fmap option_map].
      f_equal. replace (Z.pos m * 2 ^ 0) with (Z.pos p) by (simpl; lia).
      reflexivity.
    - assert (0 < 2 ^ (- e)) as Hpow by (apply Z.pow_pos_nonneg; lia).
      rewrite Hm, Z.mod_mul by lia. cbn [Z.eqb].
      rewrite Z.div_mul by lia. reflexivity. }
  destruct z as [|p|p]; [reflexivity| |].
  - apply (Hround false p). lia.
  - apply (Hround true p). lia.
Qed.

End ExactIntegers.

(** ** Requests against the store, one after another *)

Section StoreSequences.

Lemma decimal_nonneg_from (digits : JsString) (acc : Z) :
  forallb decimal_digit digits = true → 0 ≤ acc →
  0 ≤ fold_left (λ a c, a * 10 + (Z.of_N c - 0x30)) digits acc.
Proof.
  revert acc. induction digits as [|c digits IH]; intros acc Hd Hacc.
  - exact Hacc.
  - cbn [forallb] in Hd. apply andb_true_iff in Hd as [Hc Hd].
    cbn [fold_left]. apply IH; [exact Hd|].
    apply andb_true_iff in Hc as [H1 _]. apply N.leb_le in H1. lia.
Qed.

(** A decimal identifier below 2^53 selects the row with that id. *)
Lemma parse_decimal_id (digits rest : JsString) :
  digits ≠ [] →
  forallb decimal_digit digits = true →
  starts_with_decimal_digit rest = false →
  hex_prefix (digits ++ rest) = false →
  decimal digits < 2 ^ 53 →
  parseInt (digits ++ rest) = number_of_Z (decimal digits)
  ∧ isNaN (parseInt (digits ++ rest)) = false
  ∧ Store.integer_of_number (parseInt (digits ++ rest)) = Some (decimal digits).
Proof.
  intros Hne Hd Hr Hx Hlt.
  pose proof (parseInt_decimal_prefix digits rest Hne Hd Hr Hx) as Hparse.
  rewrite Hparse. split; [reflexivity|]. split; [apply number_of_Z_not_nan|].
  apply integer_of_number_of_Z.
  pose proof (decimal_nonneg_from digits 0 Hd (Z.le_refl 0)) as H0.
  fold (decimal digits) in H0. lia.
Qed.

Lemma delete_on_store (db : Store.Db) (req_params_id : JsString) (k : Z) :
  isNaN (parseInt req_params_id) = false →
  Store.integer_of_number (parseInt req_params_id) = Some k →
  serve (delete_api_posts_id Store.client req_params_id) db =
  match Store.table db !! k with
  | Some _ =>
      (Normal tt,
       mkWorld (Store.mkDb (delete k (Store.table db)) (Store.next_id db)
                           (Store.now db))
               [] [mkCallRecord (CallDelete (parseInt req_params_id)) None]
               (mkRes 200 (Some (BodyMessage msg_deleted))))
  | None =>
      (Normal tt,
       mkWorld db [(label_deleting, Store.RecordNotFound)]
               [mkCallRecord (CallDelete (parseInt req_params_id))
                             (Some Store.RecordNotFound)]
               (mkRes 404 (Some (BodyError msg_not_found))))
  end.
Proof.
  intros Hnan Hk.
  rewrite (delete_api_posts_id_outcome Store.client db _ Hnan). cbv zeta.
  cbn [post_delete Store.client]. unfold Store.delete, Store.find_unique.
  rewrite Hk. by destruct (Store.table db !! k).
Qed.

Lemma create_on_store (db : Store.Db) (props : list (JsString * JsValue))
    (s : JsString) :
  own_property props key_content = JStr s →
  trim s ≠ [] →
  Store.after (PostPosts (JObj props)) db =
  Store.mkDb
    (<[Store.next_id db :=
         Store.mkRow (trim s) (js_or (own_property props key_imageUrl) JNull)
                     (js_or (own_property props key_userId) JNull)
                     (Store.now db)]> (Store.table db))
    (Store.next_id db + 1) (Store.now db).
Proof.
  intros Hc Hs. unfold Store.after. cbn [app].
  rewrite (post_api_posts_outcome Store.client db (JObj props)
             (own_property props key_imageUrl) (own_property props key_userId) s);
    [reflexivity | by cbn [destructure]; rewrite Hc | reflexivity
    | reflexivity | exact Hs].
Qed.

Lemma next_id_unused (db : Store.Db) :
  Store.keys_below_next db → Store.table db !! Store.next_id db = None.
Proof.
  intros Hkeys.
  destruct (Store.table db !! Store.next_id db) as [row|] eqn:Hrow; [|done].
  specialize (Hkeys _ (ex_intro _ row Hrow)). lia.
Qed.

End StoreSequences.

(** On the store, a delete whose identifier is a run of decimal digits
    denoting an integer below 2^53 (whatever follows the digits) acts on the
    row with exactly that id: 200 and the row is removed when it exists, 404
    and nothing changes when it does not. *)
Theorem delete_by_decimal_id (db : Store.Db) (digits rest : JsString) :
  digits ≠ [] →
  forallb decimal_digit digits = true →
  starts_with_decimal_digit rest = false →
  hex_prefix (digits ++ rest) = false →
  decimal digits < 2 ^ 53 →
  let k := decimal digits in
  serve (delete_api_posts_id Store.client (digits ++ rest)) db =
  match Store.table db !! k with
  | Some _ =>
      (Normal tt,
       mkWorld (Store.mkDb (delete k (Store.table db)) (Store.next_id db)
                           (Store.now db))
               [] [mkCallRecord (CallDelete (number_of_Z k)) None]
               (mkRes 200 (Some (BodyMessage msg_deleted))))
  | None =>
      (Normal tt,
       mkWorld db [(label_deleting, Store.RecordNotFound)]
               [mkCallRecord (CallDelete (number_of_Z k))
                             (Some Store.RecordNotFound)]
               (mkRes 404 (Some (BodyError msg_not_found))))
  end.
Proof.
  intros Hne Hd Hr Hx Hlt k.
  destruct (parse_decimal_id digits rest Hne Hd Hr Hx Hlt) as (Hparse & Hnan & Hk).
  rewrite (delete_on_store db (digits ++ rest) k Hnan Hk).
  by rewrite Hparse.
Qed.

Lemma delete_by_decimal_id_witness :
  serve (delete_api_posts_id Store.client ([0x31]%N ++ [0x2E; 0x35]%N))
        Sample.one_post =
  (Normal tt,
   mkWorld (Store.mkDb (delete 1 (Store.table Sample.one_post)) 2 0)
           [] [mkCallRecord (CallDelete (number_of_Z 1)) None]
           (mkRes 200 (Some (BodyMessage msg_deleted)))).
Proof.
  apply (delete_by_decimal_id Sample.one_post [0x31]%N [0x2E; 0x35]%N).
  - discriminate.
  - reflexivity.
  - reflexivity.
  - reflexivity.
  - reflexivity.
Defined.

(** On a store whose key sequence is ahead of its keys, a create with a
    valid [content] adds exactly one post to the listing: the next listing
    is the previous one with the created post added, and the created post
    was not in the previous one. *)
Theorem create_then_list (db : Store.Db) (props : list (JsString * JsValue))
    (s : JsString) :
  own_property props key_content = JStr s →
  trim s ≠ [] →
  Store.keys_below_next db →
  let post := mkPost (Store.next_id db) (trim s)
                     (js_or (own_property props key_imageUrl) JNull)
                     (js_or (own_property props key_userId) JNull)
                     (Store.now db) in
  Store.listing (Store.after (PostPosts (JObj props)) db)
    ≡ₚ post :: Store.listing db
  ∧ post ∉ Store.listing db.
Proof.
  intros Hc Hs Hkeys post.
  pose proof (next_id_unused db Hkeys) as Hfresh.
  split.
  - rewrite (create_on_store db props s Hc Hs).
    rewrite !listing_sorted, !merge_sort_Permutation.
    unfold Store.all_posts. cbn [Store.table].
    rewrite map_to_list_insert by exact Hfresh.
    by rewrite fmap_cons.
  - intros Hin. apply elem_of_listing in Hin as (row & Hrow & _).
    cbn [post_id post] in Hrow. by rewrite Hfresh in Hrow.
Qed.

Lemma create_then_list_witness :
  Store.listing (Store.after (PostPosts Sample.body_hello) Store.initial)
    ≡ₚ mkPost 1 Sample.hello JNull JNull 0 :: Store.listing Store.initial
  ∧ mkPost 1 Sample.hello JNull JNull 0 ∉ Store.listing Store.initial.
Proof.
  apply (create_then_list Store.initial [(key_content, JStr Sample.padded_hello)]
           Sample.padded_hello).
  - reflexivity.
  - discriminate.
  - exact keys_below_next_initial.
Defined.



(** On the store, repeating a delete that succeeded is answered 404 and
    changes nothing more. *)
Theorem delete_twice_404 (db : Store.Db) (req_params_id : JsString)
    (k : Z) (row : Store.Row) :
  Store.integer_of_number (parseInt req_params_id) = Some k →
  Store.table db !! k = Some row →
  let db' := Store.after (DeletePost req_params_id) db in
  Store.table db' = delete k (Store.table db)
  ∧ serve (delete_api_posts_id Store.client req_params_id) db' =
    (Normal tt,
     mkWorld db' [(label_deleting, Store.RecordNotFound)]
             [mkCallRecord (CallDelete (parseInt req_params_id))
                           (Some Store.RecordNotFound)]
             (mkRes 404 (Some (BodyError msg_not_found)))).
Proof.
  intros Hk Hrow db'.
  pose proof (integer_of_number_not_nan _ _ Hk) as Hnan.
  assert (db' = Store.mkDb (delete k (Store.table db)) (Store.next_id db)
                           (Store.now db)) as ->.
  { unfold db', Store.after. cbn [app].
    by rewrite (delete_on_store db req_params_id k Hnan Hk), Hrow. }
  split; [reflexivity|].
  rewrite (delete_on_store _ req_params_id k Hnan Hk). cbn [Store.table].
  by rewrite lookup_delete_eq.
Qed.

Lemma delete_twice_404_witness :
  Store.table (Store.after (DeletePost Sample.id_1) Sample.one_post)
  = delete 1 (Store.table Sample.one_post)
  ∧ serve (delete_api_posts_id Store.client Sample.id_1)
          (Store.after (DeletePost Sample.id_1) Sample.one_post) =
    (Normal tt,
     mkWorld (Store.after (DeletePost Sample.id_1) Sample.one_post)
             [(label_deleting, Store.RecordNotFound)]
             [mkCallRecord (CallDelete (parseInt Sample.id_1))
                           (Some Store.RecordNotFound)]
             (mkRes 404 (Some (BodyError msg_not_found)))).
Proof.
  apply (delete_twice_404 Sample.one_post Sample.id_1 1
           (Store.mkRow Sample.hello JNull JNull 0)).
  - reflexivity.
  - reflexivity.
Defined.

(** On the store, a listing and every request answered with an error
    status (400, 404 or 500) leave the store exactly as it was. *)
Theorem error_leaves_store_unchanged (r : Request) (db : Store.Db) :
  r = GetPosts ∨ 400 ≤ statusCode (res (serve (app Store.client r) db).2) →
  Store.after r db = db.
Proof.
  intros Hwhy. destruct r as [|req_body|req_params_id].
  - reflexivity.
  - destruct Hwhy as [Hget | Hstatus]; [discriminate|].
    unfold Store.after. cbn [app] in *.
    destruct (post_api_posts_cases Store.client db req_body)
      as [(content & _ & _ & ->)
         | [-> | (s & imageUrl & userId & Hc & Hi & Hu & Hs)]];
      [reflexivity | reflexivity |].
    rewrite (post_api_posts_outcome Store.client db req_body imageUrl userId s
               Hc Hi Hu Hs) in Hstatus.
    cbn in Hstatus. lia.
  - destruct Hwhy as [Hget | Hstatus]; [discriminate|].
    unfold Store.after. cbn [app] in *.
    destruct (isNaN (parseInt req_params_id)) eqn:Hnan.
    + by rewrite (delete_api_posts_id_rejected Store.client db _ Hnan).
    + rewrite (delete_api_posts_id_outcome Store.client db _ Hnan) in *.
      cbv zeta in *. cbn [post_delete Store.client] in *.
      unfold Store.delete in *.
      destruct (Store.find_unique (parseInt req_params_id) db) as [[k row]|].
      * cbn in Hstatus. lia.
      * reflexivity.
Qed.

Lemma error_leaves_store_unchanged_witness :
  Store.after (DeletePost Sample.id_2) Sample.one_post = Sample.one_post.
Proof.
  apply (error_leaves_store_unchanged (DeletePost Sample.id_2) Sample.one_post).
  right. vm_compute. discriminate.
Defined.

(** ** Create: the optional fields *)

(** Whatever the request body, [create] never receives a falsy [imageUrl]
    or [userId] other than [null]: an empty string, a zero, [false] or a
    missing field all arrive as [null]. *)
Theorem create_receives_null_or_truthy {DB : Type} (prisma : PrismaClient DB)
    (db : DB) (req_body : JsValue) (data : PostData) (rej : option JsError) :
  mkCallRecord (CallCreate data) rej
    ∈ calls (serve (post_api_posts prisma req_body) db).2 →
  (data_imageUrl data = JNull ∨ truthy (data_imageUrl data) = true)
  ∧ (data_userId data = JNull ∨ truthy (data_userId data) = true).
Proof.
  intros Hin.
  assert (∀ v, js_or v JNull = JNull ∨ truthy (js_or v JNull) = true) as Hor.
  { intros v. unfold js_or. destruct (truthy v) eqn:Hv; [by right | by left]. }
  destruct (post_api_posts_cases prisma db req_body)
    as [(content & Hc & Hwhy & Hserve)
       | [Hserve | (s & imageUrl & userId & Hc & Hi & Hu & Hs)]].
  - rewrite Hserve in Hin. by apply elem_of_nil in Hin.
  - rewrite Hserve in Hin. by apply elem_of_nil in Hin.
  - rewrite (post_api_posts_outcome prisma db req_body imageUrl userId s
               Hc Hi Hu Hs) in Hin.
    destruct (post_create prisma _ db) as [[post|e] db'];
      cbn [snd calls] in Hin; apply list_elem_of_singleton in Hin;
      inversion Hin; subst; cbn [data_imageUrl data_userId]; by split.
Qed.

Lemma create_receives_null_or_truthy_witness :
  (data_imageUrl (mkPostData Sample.hello JNull JNull) = JNull
   ∨ truthy (data_imageUrl (mkPostData Sample.hello JNull JNull)) = true)
  ∧ (data_userId (mkPostData Sample.hello JNull JNull) = JNull
     ∨ truthy (data_userId (mkPostData Sample.hello JNull JNull)) = true).
Proof.
  apply (create_receives_null_or_truthy Store.client Store.initial
           Sample.body_hello (mkPostData Sample.hello JNull JNull) None).
  apply list_elem_of_singleton. reflexivity.
Defined.

(** ** Delete: the identifier and the integer it stands for *)

Section IdentifierValue.

Lemma hexadecimal_nonneg_from (digits : JsString) (acc : Z) :
  forallb hex_digit digits = true → 0 ≤ acc →
  0 ≤ fold_left (λ a c, a * 16 + hex_digit_value c) digits acc.
Proof.
  revert acc. induction digits as [|c digits IH]; intros acc Hd Hacc.
  - exact Hacc.
  - cbn [forallb] in Hd. apply andb_true_iff in Hd as [Hc Hd].
    cbn [fold_left]. apply IH; [exact Hd|].
    assert (0 ≤ hex_digit_value c) as Hv; [|lia].
    unfold hex_digit in Hc. unfold hex_digit_value.
    destruct (N.leb 0x30 c && N.leb c 0x39)%bool eqn:E0.
    { apply andb_true_iff in E0 as [H1 _]. apply N.leb_le in H1. lia. }
    destruct (N.leb 0x61 c && N.leb c 0x66)%bool eqn:E1.
    { apply andb_true_iff in E1 as [H1 _]. apply N.leb_le in H1. lia. }
    cbn [orb] in Hc. apply andb_true_iff in Hc as [H1 _].
    apply N.leb_le in H1. lia.
Qed.

Lemma decimal_nonneg (digits : JsString) :
  forallb decimal_digit digits = true → 0 ≤ decimal digits.
Proof. intros Hd. exact (decimal_nonneg_from digits 0 Hd (Z.le_refl 0)). Qed.

Lemma hexadecimal_nonneg (digits : JsString) :
  forallb hex_digit digits = true → 0 ≤ hexadecimal digits.
Proof. intros Hd. exact (hexadecimal_nonneg_from digits 0 Hd (Z.le_refl 0)). Qed.

End IdentifierValue.

(** Two identifiers that start with decimal digits which a non-digit
    follows, and for which the delete is not attempted against the leading
    integer.  ["0x"] has the leading integer 0, yet [parseInt] reads a
    hexadecimal prefix with no digit after it and gives NaN: the answer is
    400 and no delete is attempted.  ["9007199254740993abc"] has the leading
    integer 2^53 + 1, which no Number holds: the delete is attempted with
    2^53. *)
Lemma delete_leading_integer_counterexample :
  (Sample.id_0x = [0x30]%N ++ [0x78]%N
   ∧ forallb decimal_digit [0x30]%N = true
   ∧ starts_with_decimal_digit [0x78]%N = false
   ∧ decimal [0x30]%N = 0
   ∧ parseInt Sample.id_0x = S754_nan
   ∧ serve (delete_api_posts_id Store.client Sample.id_0x) Sample.one_post =
     (Normal tt,
      mkWorld Sample.one_post [] []
              (mkRes 400 (Some (BodyError msg_invalid_id)))))
  ∧ (forallb decimal_digit Edge.id_2_53_plus_1 = true
     ∧ starts_with_decimal_digit Sample.abc = false
     ∧ hex_prefix (Edge.id_2_53_plus_1 ++ Sample.abc) = false
     ∧ decimal Edge.id_2_53_plus_1 = 9007199254740993
     ∧ Store.integer_of_number (parseInt (Edge.id_2_53_plus_1 ++ Sample.abc))
       = Some 9007199254740992
     ∧ calls (serve (delete_api_posts_id Store.client
                       (Edge.id_2_53_plus_1 ++ Sample.abc))
                    Sample.one_post).2
       = [mkCallRecord (CallDelete (number_of_Z 9007199254740992))
                       (Some Store.RecordNotFound)]).
Proof. repeat split. Qed.

(** C10, amended. A delete request whose path identifier starts with a run
    of decimal digits that a non-digit (or nothing) follows, and that does
    not start with [0x] or [0X], is not answered 400, and exactly one
    Prisma call is made: the delete of the id [parseInt] returns, which is
    the Number for the integer the run denotes.  When that integer is below
    2^53 the id is exactly that integer. *)
Theorem delete_leading_decimal_integer {DB : Type} (prisma : PrismaClient DB)
    (db : DB) (digits rest : JsString) :
  digits ≠ [] →
  forallb decimal_digit digits = true →
  starts_with_decimal_digit rest = false →
  hex_prefix (digits ++ rest) = false →
  let id := parseInt (digits ++ rest) in
  let out := serve (delete_api_posts_id prisma (digits ++ rest)) db in
  id = number_of_Z (decimal digits)
  ∧ isNaN id = false
  ∧ statusCode (res out.2) ≠ 400
  ∧ calls out.2 =
    [mkCallRecord (CallDelete id) (rejection_of (post_delete prisma id db).1)]
  ∧ (decimal digits < 2 ^ 53 →
     Store.integer_of_number id = Some (decimal digits)).
Proof.
  intros Hne Hd Hr Hx id out.
  pose proof (parseInt_decimal_prefix digits rest Hne Hd Hr Hx) as Hparse.
  fold id in Hparse.
  assert (isNaN id = false) as Hnan
    by (rewrite Hparse; apply number_of_Z_not_nan).
  destruct (delete_attempted prisma db (digits ++ rest) id eq_refl Hnan)
    as [Hstatus Hcalls].
  split; [exact Hparse|]. split; [exact Hnan|].
  split; [exact Hstatus|]. split; [exact Hcalls|].
  intros Hlt. rewrite Hparse. apply integer_of_number_of_Z.
  pose proof (decimal_nonneg digits Hd). lia.
Qed.

Lemma delete_leading_decimal_integer_witness :
  parseInt Sample.id_123abc = number_of_Z 123
  ∧ statusCode (res (serve (delete_api_posts_id Store.client Sample.id_123abc)
                       Sample.one_post).2) ≠ 400
  ∧ calls (serve (delete_api_posts_id Store.client Sample.id_123abc)
             Sample.one_post).2
    = [mkCallRecord (CallDelete (parseInt Sample.id_123abc))
         (rejection_of (post_delete Store.client (parseInt Sample.id_123abc)
                          Sample.one_post).1)]
  ∧ Store.integer_of_number (parseInt Sample.id_123abc) = Some 123.
Proof.
  pose proof (delete_leading_decimal_integer Store.client Sample.one_post
                [0x31; 0x32; 0x33]%N [0x61; 0x62; 0x63]%N) as H.
  cbv zeta in H.
  destruct H as (Hparse & _ & Hstatus & Hcalls & Hexact).
  - discriminate.
  - reflexivity.
  - reflexivity.
  - reflexivity.
  - split; [exact Hparse|]. split; [exact Hstatus|]. split; [exact Hcalls|].
    apply Hexact. reflexivity.
Defined.

(** A sign before a run of decimal digits is read, not rejected.  When a
    non-digit (or nothing) follows the run and the run does not start with
    [0x] or [0X], the answer is not 400 and exactly one Prisma call is made:
    the delete of the id [parseInt] returns, which is not NaN.  When the
    integer the run denotes is below 2^53 that id is exactly the integer,
    negated after [-] (for zero, negative zero) and as it is after [+]. *)
Theorem delete_signed_id {DB : Type} (prisma : PrismaClient DB) (db : DB)
    (negative : bool) (digits rest : JsString) :
  digits ≠ [] →
  forallb decimal_digit digits = true →
  starts_with_decimal_digit rest = false →
  hex_prefix (digits ++ rest) = false →
  let req_params_id := sign_unit negative :: digits ++ rest in
  let id :=
    if decimal digits =? 0 then S754_zero negative
    else number_of_Z (if negative then - decimal digits else decimal digits) in
  let out := serve (delete_api_posts_id prisma req_params_id) db in
  parseInt req_params_id = id
  ∧ isNaN id = false
  ∧ statusCode (res out.2) ≠ 400
  ∧ calls out.2 =
    [mkCallRecord (CallDelete id) (rejection_of (post_delete prisma id db).1)]
  ∧ (decimal digits < 2 ^ 53 →
     Store.integer_of_number id
     = Some (if negative then - decimal digits else decimal digits)).
Proof.
  intros Hne Hd Hr Hx req_params_id id out.
  assert (parseInt req_params_id = id) as Hparse.
  { rewrite (parseInt_steps req_params_id (digits ++ rest) (digits ++ rest)
               negative 10).
    - rewrite (leading_digits_decimal digits rest Hd Hr).
      destruct digits as [|c digits]; [done|].
      rewrite fmap_cons. cbv beta iota zeta.
      rewrite <- (fmap_cons (λ c0 : N, Z.of_N c0 - 0x30)).
      unfold digits_value. rewrite digits_value_decimal.
      fold (decimal (c :: digits)). reflexivity.
    - unfold req_params_id. by destruct negative.
    - unfold read_radix. by rewrite Hx. }
  assert (isNaN id = false) as Hid.
  { unfold id. destruct (decimal digits =? 0); [done|].
    apply number_of_Z_not_nan. }
  destruct (delete_attempted prisma db req_params_id id Hparse Hid)
    as [Hstatus Hcalls].
  split; [exact Hparse|]. split; [exact Hid|].
  split; [exact Hstatus|]. split; [exact Hcalls|].
  intros Hlt. pose proof (decimal_nonneg digits Hd) as H0. unfold id.
  destruct (Z.eqb_spec (decimal digits) 0) as [E|E].
  - rewrite E. by destruct negative.
  - apply integer_of_number_of_Z. destruct negative; lia.
Qed.

Lemma delete_signed_id_witness :
  parseInt Edge.id_minus_7 = number_of_Z (-7)
  ∧ calls (serve (delete_api_posts_id Store.client Edge.id_minus_7)
             Sample.one_post).2
    = [mkCallRecord (CallDelete (number_of_Z (-7))) (Some Store.RecordNotFound)]
  ∧ Store.integer_of_number (number_of_Z (-7)) = Some (-7).
Proof.
  pose proof (delete_signed_id Store.client Sample.one_post true [0x37]%N [])
    as H.
  cbv zeta in H. destruct H as (Hparse & _ & _ & Hcalls & Hexact).
  - discriminate.
  - reflexivity.
  - reflexivity.
  - reflexivity.
  - split; [exact Hparse|]. split; [exact Hcalls|].
    apply Hexact. reflexivity.
Defined.

(** An identifier that starts with [0x] or [0X] and then hexadecimal digits
    is read in base 16, up to the first code unit that is not such a digit:
    the answer is not 400 and exactly one Prisma call is made, the delete of
    the id [parseInt] returns.  When the value of the digits is below 2^53
    that id is exactly the value. *)
Theorem delete_hexadecimal_id {DB : Type} (prisma : PrismaClient DB) (db : DB)
    (x : N) (digits rest : JsString) :
  x = 0x78%N ∨ x = 0x58%N →
  digits ≠ [] →
  forallb hex_digit digits = true →
  starts_with_hex_digit rest = false →
  let req_params_id := (0x30 :: x :: digits ++ rest)%N in
  let id := number_of_Z (hexadecimal digits) in
  let out := serve (delete_api_posts_id prisma req_params_id) db in
  parseInt req_params_id = id
  ∧ statusCode (res out.2) ≠ 400
  ∧ calls out.2 =
    [mkCallRecord (CallDelete id) (rejection_of (post_delete prisma id db).1)]
  ∧ (hexadecimal digits < 2 ^ 53 →
     Store.integer_of_number id = Some (hexadecimal digits)).
Proof.
  intros Hx Hne Hd Hr req_params_id id out.
  assert (parseInt req_params_id = id) as Hparse.
  { rewrite (parseInt_steps req_params_id req_params_id (digits ++ rest)
               false 16).
    - rewrite (leading_digits_hexadecimal digits rest Hd Hr).
      destruct digits as [|c digits]; [done|].
      rewrite fmap_cons. cbv beta iota zeta.
      rewrite <- (fmap_cons hex_digit_value).
      unfold digits_value. rewrite digits_value_hexadecimal.
      fold (hexadecimal (c :: digits)). unfold id.
      destruct (Z.eqb_spec (hexadecimal (c :: digits)) 0) as [E|E];
        [by rewrite E | reflexivity].
    - reflexivity.
    - unfold read_radix, req_params_id. by destruct Hx as [-> | ->]. }
  destruct (delete_attempted prisma db req_params_id id Hparse
              (number_of_Z_not_nan _)) as [Hstatus Hcalls].
  split; [exact Hparse|]. split; [exact Hstatus|]. split; [exact Hcalls|].
  intros Hlt. apply integer_of_number_of_Z.
  pose proof (hexadecimal_nonneg digits Hd). lia.
Qed.

Lemma delete_hexadecimal_id_witness :
  parseInt Sample.id_0x1A = number_of_Z 26
  ∧ calls (serve (delete_api_posts_id Store.client Sample.id_0x1A)
             Sample.one_post).2
    = [mkCallRecord (CallDelete (number_of_Z 26)) (Some Store.RecordNotFound)]
  ∧ Store.integer_of_number (number_of_Z 26) = Some 26.
Proof.
  pose proof (delete_hexadecimal_id Store.client Sample.one_post 0x78%N
                [0x31; 0x41]%N []) as H.
  cbv zeta in H. destruct H as (Hparse & _ & Hcalls & Hexact).
  - by left.
  - discriminate.
  - reflexivity.
  - reflexivity.
  - split; [exact Hparse|]. split; [exact Hcalls|].
    apply Hexact. reflexivity.
Defined.
